(** * Citation / reference conversion engine of paperlib

    A shallow embedding of [src/app/renderer/services/reference-service.ts]
    (class [ReferenceService] and the helper [escapeLaTexString]) together
    with the properties its specification states about it.

    Strings are JavaScript strings whose code units lie in the Latin-1 range
    (one [ascii] per code unit); objects that the service mutates live in an
    explicit store; the preference service, the file system, the log, the
    template registry of citation-js and the clipboard are fields of a
    [World] that every method threads through. *)

From Stdlib Require Import ZArith Ascii String.
From stdpp Require Import gmap strings list.

Local Open Scope Z_scope.

(* ===================================================================== *)
(** * JavaScript string primitives used by the service *)
(* ===================================================================== *)

Module Js.

Definition code (c : ascii) : N := N_of_ascii c.

(** ECMAScript LineTerminator: LF and CR (U+2028 and U+2029 lie outside
    the modelled range). *)
Definition is_line_terminator (c : ascii) : bool :=
  ((code c =? 10) || (code c =? 13))%N.

(** ECMAScript WhiteSpace restricted to Latin-1: TAB, VT, FF, SP, NBSP. *)
Definition is_white_space (c : ascii) : bool :=
  ((code c =? 9) || (code c =? 11) || (code c =? 12) || (code c =? 32)
   || (code c =? 160))%N.

(** What [String.prototype.trim] strips at both ends. *)
Definition is_trimmable (c : ascii) : bool :=
  is_white_space c || is_line_terminator c.

Definition lower_char (c : ascii) : ascii :=
  let n := code c in
  if (((65 <=? n) && (n <=? 90))
      || ((192 <=? n) && (n <=? 222) && negb (n =? 215)))%N
  then ascii_of_N (n + 32) else c.

(** [s.toLowerCase()] *)
Fixpoint toLowerCase (s : string) : string :=
  match s with
  | EmptyString => EmptyString
  | String c s' => String (lower_char c) (toLowerCase s')
  end.

(** [s.length] *)
Definition length (s : string) : Z := Z.of_nat (String.length s).

(** [s.includes(c)] for a one-character needle. *)
Fixpoint includes (c : ascii) (s : string) : bool :=
  match s with
  | EmptyString => false
  | String d s' => Ascii.eqb d c || includes c s'
  end.

(** [s.split(sep)] for a one-character separator; every call site of the
    service passes ";", "," or " ".  The result always has at least one
    element: splitting the empty string gives one empty piece. *)
Fixpoint split (sep : ascii) (s : string) : list string :=
  match s with
  | EmptyString => [EmptyString]
  | String c s' =>
      if Ascii.eqb c sep then EmptyString :: split sep s'
      else match split sep s' with
           | piece :: rest => String c piece :: rest
           | [] => [String c EmptyString]
           end
  end.

(** [parts.join(sep)] *)
Fixpoint join (sep : string) (parts : list string) : string :=
  match parts with
  | [] => EmptyString
  | [p] => p
  | p :: rest => p +:+ sep +:+ join sep rest
  end.

Fixpoint trimStart (s : string) : string :=
  match s with
  | EmptyString => EmptyString
  | String c s' => if is_trimmable c then trimStart s' else s
  end.

Fixpoint trimEnd (s : string) : string :=
  match s with
  | EmptyString => EmptyString
  | String c s' =>
      match trimEnd s' with
      | EmptyString => if is_trimmable c then EmptyString
                       else String c EmptyString
      | r => String c r
      end
  end.

(** [s.trim()] *)
Definition trim (s : string) : string := trimEnd (trimStart s).

(** [s.endsWith(suffix)] *)
Fixpoint endsWith (suffix s : string) : bool :=
  String.eqb s suffix ||
  match s with
  | EmptyString => false
  | String _ s' => endsWith suffix s'
  end.

(** [p] is a prefix of [s]: the remainder of [s] after [p]. *)
Fixpoint strip_prefix (p s : string) : option string :=
  match p, s with
  | EmptyString, _ => Some s
  | String a p', String b s' =>
      if Ascii.eqb a b then strip_prefix p' s' else None
  | String _ _, EmptyString => None
  end.

(** First occurrence of the string pattern [pat] in [s]: the text before
    it and the text after it. *)
Fixpoint search (pat s : string) : option (string * string) :=
  match strip_prefix pat s with
  | Some after => Some (EmptyString, after)
  | None =>
      match s with
      | EmptyString => None
      | String c s' =>
          match search pat s' with
          | Some (before, after) => Some (String c before, after)
          | None => None
          end
      end
  end.

(** ECMAScript GetSubstitution for a string pattern (no capture groups):
    in the replacement text "$$" stands for "$", "$&" for the matched
    text, "$`" for the text before the match and "$'" for the text after
    it; "$" followed by anything else is kept literally. *)
Fixpoint getSubstitution (matched before after repl : string) : string :=
  match repl with
  | EmptyString => EmptyString
  | String c r =>
      if Ascii.eqb c "$" then
        match r with
        | EmptyString => String c EmptyString
        | String d r' =>
            if Ascii.eqb d "$" then
              String "$" (getSubstitution matched before after r')
            else if Ascii.eqb d "&" then
              matched +:+ getSubstitution matched before after r'
            else if Ascii.eqb d "`" then
              before +:+ getSubstitution matched before after r'
            else if Ascii.eqb d "'" then
              after +:+ getSubstitution matched before after r'
            else String c (getSubstitution matched before after r)
        end
      else String c (getSubstitution matched before after r)
  end.

(** [s.replace(pat, repl)] with a string pattern: only the first
    occurrence is replaced, and [repl] goes through GetSubstitution. *)
Definition replace (pat repl s : string) : string :=
  match search pat s with
  | None => s
  | Some (before, after) =>
      before +:+ getSubstitution pat before after repl +:+ after
  end.

Fixpoint replaceAll_go (pat : ascii) (repl before s : string) : string :=
  match s with
  | EmptyString => EmptyString
  | String c s' =>
      let before' := before +:+ String c EmptyString in
      if Ascii.eqb c pat then
        getSubstitution (String c EmptyString) before s' repl
          +:+ replaceAll_go pat repl before' s'
      else String c (replaceAll_go pat repl before' s')
  end.

(** [s.replaceAll(pat, repl)] for a one-character string pattern. *)
Definition replaceAll (pat : ascii) (repl s : string) : string :=
  replaceAll_go pat repl EmptyString s.

(** [s.match(/\$(.*?)\$/g)]: the matches of the global regular expression,
    left to right.  A match opens at a "$" and closes at the next "$"; the
    lazy [.*?] cannot cross a line terminator, so an opening "$" that
    meets one before any closing "$" is abandoned, and the scan resumes
    after it (no "$" lies in between).  [open] holds the text read since
    the opening "$".  JavaScript returns [null] where this returns []. *)
Fixpoint matchMathEnvs_go (open : option string) (s : string)
  : list string :=
  match s with
  | EmptyString => []
  | String c s' =>
      match open with
      | None =>
          if Ascii.eqb c "$" then matchMathEnvs_go (Some EmptyString) s'
          else matchMathEnvs_go None s'
      | Some buf =>
          if Ascii.eqb c "$" then
            String "$" (buf +:+ String "$" EmptyString)
              :: matchMathEnvs_go None s'
          else if is_line_terminator c then matchMathEnvs_go None s'
          else matchMathEnvs_go (Some (buf +:+ String c EmptyString)) s'
      end
  end.

Definition matchMathEnvs (s : string) : list string :=
  matchMathEnvs_go None s.

(** A JavaScript value as far as the service inspects one: the result of
    the XML parser and the [name] of a style descriptor. *)
#[warnings="-register-all"]
Inductive value :=
| Undefined
| Null
| Str (s : string)
| Obj (fields : list (string * value)).

Fixpoint assoc (k : string) (fields : list (string * value)) : value :=
  match fields with
  | [] => Undefined
  | (k', v) :: rest => if String.eqb k' k then v else assoc k rest
  end.

(** Property read [v.k] for a key that is no built-in string property:
    a TypeError ([None]) on [undefined] and [null]. *)
Definition get (k : string) (v : value) : option value :=
  match v with
  | Undefined | Null => None
  | Str _ => Some Undefined
  | Obj fields => Some (assoc k fields)
  end.

End Js.

(* ===================================================================== *)
(** * Data model *)
(* ===================================================================== *)

(** The fields of [PaperEntity] (declared in [@/models/paper-entity]) that
    the service reads.  [codes] is [None] when the property is undefined. *)
Module PaperEntity.
Record t := mk {
  id : string;
  title : string;
  authors : string;
  publication : string;
  pubTime : string;
  pubType : Z;
  publisher : string;
  pages : string;
  volume : string;
  number : string;
  doi : string;
  codes : option (list string);
}.

Definition with_publication (v : string) (p : t) : t :=
  mk (id p) (title p) (authors p) v (pubTime p) (pubType p) (publisher p)
     (pages p) (volume p) (number p) (doi p) (codes p).
End PaperEntity.

Record ParsedName := { given : string; family : string }.

(** The CSL-JSON object that [parseSingle] returns.  [type] is [None] when
    the table lookup yields [undefined]. *)
Module CSL.
Record t := mk {
  id : string;
  type : option string;
  citation_key : string;
  title : string;
  author : list ParsedName;
  issued : string;
  container_title : string;
  publisher : string;
  page : string;
  volume : string;
  issue : string;
  DOI : string;
}.

Definition with_title (v : string) (c : t) : t :=
  mk (id c) (type c) (citation_key c) v (author c) (issued c)
     (container_title c) (publisher c) (page c) (volume c) (issue c) (DOI c).
End CSL.

(** A [Cite] object, as far as the service uses one: its [data] array. *)
Definition Cite := list CSL.t.

(** [{ key, name }] of a style listing; [name] is whatever the parsed XML
    holds at [style.info.title]. *)
Record StyleDescriptor := { key : string; name : Js.value }.

(** The argument object of [formatString] at its call site. *)
Record FormatStringArgs := {
  str : string;
  removeNewline : bool;
  removeSymbol : bool;
  removeWhite : bool;
  trimWhite : bool;
}.

(** One [{ from, to }] item of the [exportReplacement] preference. *)
Record Replacement := { from : string; to : string }.

(* ===================================================================== *)
(** * Effects: results, the world, the monad *)
(* ===================================================================== *)

(** A JavaScript completion: a value or a thrown error (its message). *)
Inductive Result (A : Type) :=
| Ok (a : A)
| Throw (e : string).
Arguments Ok {A} a.
Arguments Throw {A} e.

(** [logService.error(message, error, notify, tag)] *)
Record LogEntry := {
  log_message : string;
  log_error : string;
  log_notify : bool;
  log_tag : string;
}.

(** One call of [cite.format]. *)
Inductive FormatCall :=
| FormatBibtex
| FormatBibtexKey
| FormatBibliography (template : string).

(** The preference service.  [exportReplacement] is [None] when the stored
    value is no array, so that [.map] on it throws. *)
Record Preferences := {
  enableExportReplacement : bool;
  exportReplacement : option (list Replacement);
  selectedCSLStyle : string;
  importedCSLStylesPath : string;
}.

(** Everything outside the service that it reads or writes.  [files] maps
    the path of a regular file to its contents, [listing] a directory to
    the names [readdirSync] returns for it; [templates] is the registry
    [Cite.plugins.config.get("@csl").templates]; [clipboard] holds the
    texts written, latest first. *)
Record World := {
  store : gmap nat PaperEntity.t;
  prefs : Preferences;
  files : gmap string string;
  listing : gmap string (list string);
  templates : gmap string string;
  log : list LogEntry;
  formatted : list FormatCall;
  clipboard : list string;
}.

Definition set_store (f : gmap nat PaperEntity.t -> gmap nat PaperEntity.t)
  (w : World) : World :=
  Build_World (f (store w)) (prefs w) (files w) (listing w) (templates w)
    (log w) (formatted w) (clipboard w).

Definition set_prefs (p : Preferences) (w : World) : World :=
  Build_World (store w) p (files w) (listing w) (templates w)
    (log w) (formatted w) (clipboard w).

Definition set_templates (f : gmap string string -> gmap string string)
  (w : World) : World :=
  Build_World (store w) (prefs w) (files w) (listing w) (f (templates w))
    (log w) (formatted w) (clipboard w).

Definition set_log (f : list LogEntry -> list LogEntry) (w : World) : World :=
  Build_World (store w) (prefs w) (files w) (listing w) (templates w)
    (f (log w)) (formatted w) (clipboard w).

Definition set_formatted (f : list FormatCall -> list FormatCall)
  (w : World) : World :=
  Build_World (store w) (prefs w) (files w) (listing w) (templates w)
    (log w) (f (formatted w)) (clipboard w).

Definition set_clipboard (f : list string -> list string) (w : World)
  : World :=
  Build_World (store w) (prefs w) (files w) (listing w) (templates w)
    (log w) (formatted w) (f (clipboard w)).

Definition select_style (csl : string) (w : World) : World :=
  set_prefs
    {| enableExportReplacement := enableExportReplacement (prefs w);
       exportReplacement := exportReplacement (prefs w);
       selectedCSLStyle := csl;
       importedCSLStylesPath := importedCSLStylesPath (prefs w) |} w.

(** A method body: it may read and update the world, and it returns or
    throws.  The world persists across a throw. *)
Definition M (A : Type) : Type := World -> Result A * World.

Definition ret {A} (a : A) : M A := fun w => (Ok a, w).

Definition throw {A} (e : string) : M A := fun w => (Throw e, w).

Definition bind {A B} (m : M A) (k : A -> M B) : M B :=
  fun w =>
    match m w with
    | (Ok a, w') => k a w'
    | (Throw e, w') => (Throw e, w')
    end.

Notation "'let*' x := m 'in' k" := (bind m (fun x => k))
  (at level 10, x name, m at level 100, k at level 200, only parsing).
Notation "m >> k" := (bind m (fun _ => k))
  (at level 65, right associativity, only parsing).

Definition lift {A} (r : Result A) : M A := fun w => (r, w).

Definition gets {A} (f : World -> A) : M A := fun w => (Ok (f w), w).

Definition modify (f : World -> World) : M unit := fun w => (Ok tt, f w).

(** [try { body } catch (e) { handler(e) }] *)
Definition try_catch {A} (body : M A) (handler : string -> M A) : M A :=
  fun w =>
    match body w with
    | (Ok a, w') => (Ok a, w')
    | (Throw e, w') => handler e w'
    end.

Fixpoint mapM {A B} (f : A -> M B) (l : list A) : M (list B) :=
  match l with
  | [] => ret []
  | a :: l' => let* b := f a in let* bs := mapM f l' in ret (b :: bs)
  end.

Definition logService_error (message error : string) (notify : bool)
  (tag : string) : M unit :=
  modify (set_log (fun l => l ++ [Build_LogEntry message error notify tag])).

(** Modelled from the spec: the decorator [errorcatching] of [@/base/error],
    which is not among the sources.  A failure of the decorated method is
    caught, logged with the fixed message, the user-visible flag and the
    component tag, and replaced by the fallback value. *)
Definition errorcatching {A} (message : string) (notify : bool)
  (tag : string) (fallback : A) (body : M A) : M A :=
  try_catch body
    (fun e => logService_error message e notify tag >> ret fallback).

(* ===================================================================== *)
(** * Collaborators outside the sources *)
(* ===================================================================== *)

(** What the service calls and the sources do not define: [formatString]
    of [@/base/string], the locale-dependent [toLocaleLowerCase], the
    formatters and parsers of citation-js, Node's [path] and the XML
    parser.  [format_bibliography] receives the template registry, since
    citation-js resolves the template key in it. *)
Class Collaborators := {
  formatString : FormatStringArgs -> string;
  toLocaleLowerCase : string -> string;
  format_bibtex : Cite -> Result string;
  format_bibliography : gmap string string -> string -> Cite -> Result string;
  parse_text : string -> Result Cite;
  parse_unrecognised : list PaperEntity.t -> Result Cite;
  path_join : string -> string -> string;
  path_basename : string -> string -> string;
  xml_parse : string -> Result Js.value;
}.

(* ===================================================================== *)
(** * The service *)
(* ===================================================================== *)

(** [array[i]] for a number [i] that is an integer: [undefined] out of
    range. *)
Definition index {A} (l : list A) (i : Z) : option A :=
  if 0 <=? i then l !! Z.to_nat i else None.

Section ReferenceService.
Context `{Collaborators}.

(** ** [parseSingle], lines 29-89 *)

(** The callback of [nameArray.map].  [nameParts] is never empty, so the
    read of its last element is never [undefined]. *)
Definition parseName (name : string) : ParsedName :=
  let name := Js.trim name in
  let nameParts := Js.split " " name in
  let given :=
    Js.join " " (take (List.length nameParts - 1)%nat nameParts) in
  let family := List.last nameParts EmptyString in
  {| given := given; family := family |}.

Definition parseAuthors (authors : string) : list ParsedName :=
  let nameArray :=
    if Js.includes ";" authors then Js.split ";" authors
    else Js.split "," authors in
  map parseName nameArray.

(** The condition of the [if] inside the title loop. *)
Definition wordTest (word : string) : bool :=
  negb (String.eqb (toLocaleLowerCase word) "the")
  || negb (String.eqb (toLocaleLowerCase word) "a")
  || negb (String.eqb (toLocaleLowerCase word) "an")
  || (Js.length word <=? 3).

Definition formatWord (word : string) : string :=
  formatString
    {| str := Js.toLowerCase word;
       removeNewline := true;
       removeSymbol := true;
       removeWhite := true;
       trimWhite := true |}.

(** The loop [for (const word of titleArray)] with its [break]: what it
    appends to [citeKey]. *)
Fixpoint titleFragment (titleArray : list string) : string :=
  match titleArray with
  | [] => EmptyString
  | word :: rest =>
      if wordTest word then formatWord word else titleFragment rest
  end.

Definition citeKeyOf (nameArray : list ParsedName) (pubTime title : string)
  : string :=
  let citeKey := EmptyString in
  let citeKey :=
    match nameArray with
    | first :: _ => citeKey +:+ Js.toLowerCase (family first)
    | [] => citeKey
    end in
  let citeKey := citeKey +:+ pubTime in
  let titleArray := Js.split " " title in
  citeKey +:+ titleFragment titleArray.

Definition typeTable : list string :=
  ["article"; "paper-conference"; "article"; "book"].

Definition parseSingle (paperEntityDraft : PaperEntity.t) : CSL.t :=
  let nameArray := parseAuthors (PaperEntity.authors paperEntityDraft) in
  let citeKey :=
    citeKeyOf nameArray (PaperEntity.pubTime paperEntityDraft)
      (PaperEntity.title paperEntityDraft) in
  {| CSL.id := PaperEntity.id paperEntityDraft;
     CSL.type := index typeTable (PaperEntity.pubType paperEntityDraft);
     CSL.citation_key := citeKey;
     CSL.title := PaperEntity.title paperEntityDraft;
     CSL.author := nameArray;
     CSL.issued := PaperEntity.pubTime paperEntityDraft;
     CSL.container_title := PaperEntity.publication paperEntityDraft;
     CSL.publisher := PaperEntity.publisher paperEntityDraft;
     CSL.page := PaperEntity.pages paperEntityDraft;
     CSL.volume := PaperEntity.volume paperEntityDraft;
     CSL.issue := PaperEntity.number paperEntityDraft;
     CSL.DOI := PaperEntity.doi paperEntityDraft |}.

Definition parseMulti (paperEntityDrafts : list PaperEntity.t) : Cite :=
  map parseSingle paperEntityDrafts.

Definition predicateSingle (paperEntityDraft : PaperEntity.t) : bool :=
  bool_decide (is_Some (PaperEntity.codes paperEntityDraft)).

Definition predicateMulti (paperEntityDrafts : list PaperEntity.t) : bool :=
  forallb predicateSingle paperEntityDrafts.

(** The output plugin registered under the name bibtex-key. *)
Definition format_bibtex_key (csls : Cite) : string :=
  Js.join ", " (map CSL.citation_key csls).

(** ** References to [PaperEntity] objects *)

Definition deref (r : nat) : M PaperEntity.t :=
  fun w =>
    match store w !! r with
    | Some p => (Ok p, w)
    | None => (Throw "ReferenceError: no such object", w)
    end.

(** Modelled from the spec: the constructor [new PaperEntity(paperEntity)]
    of [@/models/paper-entity], which is not among the sources; it copies
    the record into a fresh working draft. *)
Definition newPaperEntity (paperEntity : PaperEntity.t) : M nat :=
  fun w =>
    let r := fresh (dom (store w)) in
    (Ok r, set_store (insert r paperEntity) w).

(** [new Map(entries)]: a later entry with the same key overwrites an
    earlier one. *)
Definition Map_new (entries : list (string * string)) : gmap string string :=
  fold_left (fun m entry => <[entry.1 := entry.2]> m) entries ∅.

(** ** [replacePublication], lines 140-165 *)

Definition replacePublication (source : nat) : M nat :=
  try_catch
    (let* enabled := gets (fun w => enableExportReplacement (prefs w)) in
     (if (enabled : bool) then
        let* stored := gets (fun w => exportReplacement (prefs w)) in
        let* pubReplacement :=
          match stored with
          | Some items => ret items
          | None => throw "TypeError: pubReplacement.map is not a function"
          end in
        let pubMap :=
          Map_new (map (fun item => (from item, to item)) pubReplacement) in
        let* entity := deref source in
        match pubMap !! PaperEntity.publication entity with
        | Some target =>
            modify (set_store
              (insert source (PaperEntity.with_publication target entity)))
        | None => ret tt
        end
      else ret tt) >>
     ret source)
    (fun e =>
       logService_error "Failed to abbreviate publication name." e true
         "ReferenceService" >>
       ret source).

(** ** [toCite], lines 172-188 *)

Inductive Source :=
| SourceText (text : string)
| SourceEntity (r : nat)
| SourceEntities (rs : list nat).

(** [new Cite(input)]: citation-js hands the input to the parser whose
    predicate accepts it, that is to [parseSingle] or [parseMulti] when the
    predicates registered by the service hold. *)
Definition newCite (input : Source) : M Cite :=
  match input with
  | SourceText text => lift (parse_text text)
  | SourceEntity r =>
      let* p := deref r in
      if predicateSingle p then ret [parseSingle p]
      else lift (parse_unrecognised [p])
  | SourceEntities rs =>
      let* ps := mapM deref rs in
      if predicateMulti ps then ret (parseMulti ps)
      else lift (parse_unrecognised ps)
  end.

(** The result is [None] where the method returns [null]. *)
Definition toCite (source : Source) : M (option Cite) :=
  errorcatching "Failed to convert paper entity to cite object." true
    "ReferenceService" None
    (match source with
     | SourceText text =>
         let* cite := newCite (SourceText text) in ret (Some cite)
     | SourceEntity r =>
         let* r' := replacePublication r in
         let* cite := newCite (SourceEntity r') in ret (Some cite)
     | SourceEntities rs =>
         let* rs' := mapM replacePublication rs in
         let* cite := newCite (SourceEntities rs') in ret (Some cite)
     end).

(** ** [cite.format] *)

Definition null_read (property : string) : string :=
  "TypeError: Cannot read properties of null (reading '" +:+ property
    +:+ "')".

Definition cite_format (cite : option Cite) (call : FormatCall) : M string :=
  match cite with
  | None => throw (null_read "format")
  | Some data =>
      modify (set_formatted (fun l => l ++ [call])) >>
      match call with
      | FormatBibtex => lift (format_bibtex data)
      | FormatBibtexKey => ret (format_bibtex_key data)
      | FormatBibliography template =>
          let* registry := gets templates in
          lift (format_bibliography registry template data)
      end
  end.

(** ** [exportBibTexKey], lines 195-203 *)

Definition exportBibTexKey (cite : option Cite) : M string :=
  errorcatching "Failed to convert cite object to BibTex Key." true
    "ReferenceService" EmptyString
    (cite_format cite FormatBibtexKey).

(** ** [escapeLaTexString], lines 363-369 *)

Definition escapeLaTexString (str : string) : string :=
  Js.replaceAll "#" "\#"
    (Js.replaceAll "%" "\%"
       (Js.replaceAll "&" "\&" str)).

(** ** [exportBibTexBody], lines 210-242 *)

(** The template literals of the source contain no interpolation: both are
    the same text at every index. *)
Definition placeholder : string := "MATHENVDOLLAR{i}".
Definition placeholder_braced : string := "{MATHENVDOLLAR}{i}".

(** The inner loop over [envs]: the spans pushed on [mathEnvStrs] and the
    title after the replacements. *)
Definition maskTitle (title : string) : list string * string :=
  let envs := Js.matchMathEnvs title in
  (envs, fold_left (fun t env => Js.replace env placeholder t) envs title).

(** The loop over [cite.data]: all of [mathEnvStrs] and the data with the
    titles rewritten in place. *)
Fixpoint maskTitles (data : Cite) : list string * Cite :=
  match data with
  | [] => ([], [])
  | entry :: rest =>
      let '(envs, title) := maskTitle (CSL.title entry) in
      let entry' :=
        match envs with
        | [] => entry
        | _ :: _ => CSL.with_title title entry
        end in
      let '(envs', rest') := maskTitles rest in
      (envs ++ envs', entry' :: rest')
  end.

(** The loop over [mathEnvStrs] that puts the spans back. *)
Definition restoreMathEnvs (mathEnvStrs : list string) (bibtexBody : string)
  : string :=
  fold_left
    (fun body env =>
       Js.replace placeholder_braced env (Js.replace placeholder env body))
    mathEnvStrs bibtexBody.

Definition exportBibTexBody (cite : option Cite) : M string :=
  errorcatching "Failed to convert cite object to BibTex string." true
    "ReferenceService" EmptyString
    (match cite with
     | None => throw (null_read "data")
     | Some data =>
         let '(mathEnvStrs, data') := maskTitles data in
         let* rendered := cite_format (Some data') FormatBibtex in
         ret (restoreMathEnvs mathEnvStrs (escapeLaTexString rendered))
     end).

(** ** [exportPlainText], lines 244-274 *)

Definition builtinKeys : list string := ["apa"; "vancouver"; "harvard1"].

Definition existsSync (path : string) : M bool :=
  gets (fun w => bool_decide (is_Some (files w !! path))).

Definition readFileSync (path : string) : M string :=
  fun w =>
    match files w !! path with
    | Some content => (Ok content, w)
    | None => (Throw ("ENOENT: no such file or directory, open " +:+ path), w)
    end.

Definition readdirSync (path : string) : M (list string) :=
  fun w =>
    match listing w !! path with
    | Some names => (Ok names, w)
    | None =>
        (Throw ("ENOENT: no such file or directory, scandir " +:+ path), w)
    end.

Definition exportPlainText (cite : option Cite) : M string :=
  let* csl := gets (fun w => selectedCSLStyle (prefs w)) in
  if bool_decide (csl ∈ builtinKeys) then
    cite_format cite (FormatBibliography csl)
  else
    let* stylesPath := gets (fun w => importedCSLStylesPath (prefs w)) in
    let templatePath := path_join stylesPath (csl +:+ ".csl") in
    let* present := existsSync templatePath in
    if (present : bool) then
      let* registry := gets templates in
      (if bool_decide (is_Some (registry !! csl)) then ret tt
       else
         let* template := readFileSync templatePath in
         modify (set_templates (insert csl template))) >>
      cite_format cite (FormatBibliography csl)
    else
      logService_error ("CSL template file: " +:+ csl +:+ ".csl not found.")
        EmptyString true "Reference" >>
      cite_format cite (FormatBibliography "apa").

(** ** [export], lines 281-297 *)

Definition clipboard_writeText (text : string) : M unit :=
  modify (set_clipboard (fun written => text :: written)).

Definition export (paperEntities : list PaperEntity.t) (format : string)
  : M unit :=
  errorcatching "Failed to export paper entities." true "ReferenceService" tt
    (let* paperEntityDrafts := mapM newPaperEntity paperEntities in
     let* copyStr :=
       if String.eqb format "BibTex" then
         let* cite := toCite (SourceEntities paperEntityDrafts) in
         exportBibTexBody cite
       else if String.eqb format "BibTex-Key" then
         let* cite := toCite (SourceEntities paperEntityDrafts) in
         exportBibTexKey cite
       else if String.eqb format "PlainText" then
         let* cite := toCite (SourceEntities paperEntityDrafts) in
         exportPlainText cite
       else ret EmptyString in
     clipboard_writeText copyStr).

(** ** [loadCSLStyles], lines 303-360 *)

Definition CSLStyles : list StyleDescriptor :=
  [ {| key := "apa"; name := Js.Str "American Psychological Association" |};
    {| key := "vancouver"; name := Js.Str "Vancouver" |};
    {| key := "harvard1"; name := Js.Str "Harvard1" |} ].

(** [xml.style.info.title]; [None] when a read throws. *)
Definition style_info_title (xml : Js.value) : option Js.value :=
  match Js.get "style" xml with
  | None => None
  | Some style =>
      match Js.get "info" style with
      | None => None
      | Some info => Js.get "title" info
      end
  end.

(** The async function [parsePromise].  The file read and the XML parse lie
    before its [try]; [None] is its [null]. *)
Definition parsePromise (filePath : string) : M (option StyleDescriptor) :=
  let* fileContent := readFileSync filePath in
  let* xml := lift (xml_parse fileContent) in
  try_catch
    (match style_info_title xml with
     | Some title =>
         ret (Some {| key := path_basename filePath ".csl"; name := title |})
     | None => throw "TypeError: Cannot read properties of undefined"
     end)
    (fun _ => ret None).

(** Calling an async function never throws: the outcome settles the
    promise it returns. *)
Definition promise {A} (body : M A) : M (Result A) :=
  fun w => let '(r, w') := body w in (Ok r, w').

(** [await Promise.all(promises)] on settled promises: the values in the
    order of the promises, or the first rejection. *)
Fixpoint Promise_all {A} (promises : list (Result A)) : Result (list A) :=
  match promises with
  | [] => Ok []
  | Throw e :: _ => Throw e
  | Ok a :: rest =>
      match Promise_all rest with
      | Ok l => Ok (a :: l)
      | Throw e => Throw e
      end
  end.

Definition loadCSLStyles : M (list StyleDescriptor) :=
  errorcatching "Failed to load CSL styles." true "ReferenceService" []
    (let* stylesPath := gets (fun w => importedCSLStylesPath (prefs w)) in
     if String.eqb stylesPath EmptyString then ret CSLStyles
     else
       let* names := readdirSync stylesPath in
       let* promises :=
         mapM (fun file => promise (parsePromise (path_join stylesPath file)))
           (filter (fun file => Js.endsWith ".csl" file = true) names) in
       let* parsed := lift (Promise_all promises) in
       let importedCSLStyles := omap (fun item => item) parsed in
       ret (CSLStyles ++ importedCSLStyles)).

End ReferenceService.

(* ===================================================================== *)
(** * A concrete set of collaborators *)
(* ===================================================================== *)

(** Small stand-ins on which the service can be run. *)
Module Sample.

Definition is_alphanumeric (c : ascii) : bool :=
  let n := Js.code c in
  (((48 <=? n) && (n <=? 57)) || ((65 <=? n) && (n <=? 90))
   || ((97 <=? n) && (n <=? 122)) || (192 <=? n))%N.

Fixpoint keep (f : ascii -> bool) (s : string) : string :=
  match s with
  | EmptyString => EmptyString
  | String c s' => if f c then String c (keep f s') else keep f s'
  end.

(** Modelled from the spec: [formatString] of [@/base/string], which is not
    among the sources; it normalizes a word by stripping newlines, symbols
    and whitespace, each when the matching flag is set. *)
Definition formatString (args : FormatStringArgs) : string :=
  let s := str args in
  let s :=
    if removeNewline args
    then keep (fun c => negb (Js.is_line_terminator c)) s else s in
  let s := if trimWhite args then Js.trim s else s in
  let s :=
    if removeWhite args then keep (fun c => negb (Js.is_trimmable c)) s
    else s in
  if removeSymbol args
  then keep (fun c => is_alphanumeric c || Js.is_trimmable c) s else s.

Definition bibtex_entry (c : CSL.t) : string :=
  "@" +:+ default "misc" (CSL.type c) +:+ "{" +:+ CSL.citation_key c
    +:+ ", title = {" +:+ CSL.title c +:+ "}, journal = {"
    +:+ CSL.container_title c +:+ "}}".

Definition format_bibtex (data : Cite) : Result string :=
  Ok (Js.join " " (map bibtex_entry data)).

Definition format_bibliography (registry : gmap string string)
  (template : string) (data : Cite) : Result string :=
  let style :=
    if bool_decide (is_Some (registry !! template)) then "custom " +:+ template
    else template in
  Ok (Js.join " " (map (fun c => CSL.title c +:+ " (" +:+ style +:+ ").")
                     data)).

Definition path_join (dir file : string) : string := dir +:+ "/" +:+ file.

Definition path_basename (path ext : string) : string :=
  let base := List.last (Js.split "/" path) EmptyString in
  match Js.search ext base with
  | Some (stem, EmptyString) => stem
  | _ => base
  end.

Definition titled_style : string :=
  "<style><info><title>IEEE</title></info></style>".
Definition untitled_style : string :=
  "<style><info><id>ieee</id></info></style>".

(** A parser that knows two documents and reads anything else as an empty
    object. *)
Definition xml_parse (content : string) : Result Js.value :=
  if String.eqb content titled_style then
    Ok (Js.Obj [("style",
          Js.Obj [("info", Js.Obj [("title", Js.Str "IEEE")])])])
  else if String.eqb content untitled_style then
    Ok (Js.Obj [("style",
          Js.Obj [("info", Js.Obj [("id", Js.Str "ieee")])])])
  else Ok (Js.Obj []).

#[global] Instance collaborators : Collaborators :=
  Build_Collaborators formatString Js.toLowerCase format_bibtex
    format_bibliography (fun _ => Throw "unsupported input")
    (fun _ => Throw "unsupported input") path_join path_basename xml_parse.

(** The same collaborators with formatters that render no citations as
    the empty text and fail on any other data. *)
Definition fragile : Collaborators :=
  Build_Collaborators formatString Js.toLowerCase
    (fun data =>
       match data with
       | [] => Ok EmptyString
       | _ :: _ => Throw "cannot format"
       end)
    (fun _ _ data =>
       match data with
       | [] => Ok EmptyString
       | _ :: _ => Throw "cannot format"
       end)
    (fun _ => Throw "unsupported input")
    (fun _ => Throw "unsupported input") path_join path_basename xml_parse.

(** The same collaborators with a BibTeX formatter that ends what it
    renders with a line feed, also when there is no citation. *)
Definition line_fed : Collaborators :=
  Build_Collaborators formatString Js.toLowerCase
    (fun data =>
       Ok (Js.join " " (map bibtex_entry data)
             +:+ String "010" EmptyString))
    format_bibliography (fun _ => Throw "unsupported input")
    (fun _ => Throw "unsupported input") path_join path_basename xml_parse.

Definition preferences : Preferences :=
  {| enableExportReplacement := true;
     exportReplacement :=
       Some [ {| from := "NeurIPS";
                 to := "Conference on Neural Information Processing Systems (NeurIPS)" |} ];
     selectedCSLStyle := "apa";
     importedCSLStylesPath := "styles" |}.

Definition world : World :=
  {| store := ∅;
     prefs := preferences;
     files := ∅;
     listing := ∅;
     templates := ∅;
     log := [];
     formatted := [];
     clipboard := [] |}.

(** A world whose style directory holds one file, without a title. *)
Definition world_with_style : World :=
  {| store := ∅;
     prefs := preferences;
     files := {[ "styles/ieee.csl" := untitled_style ]};
     listing := {[ "styles" := ["ieee.csl"] ]};
     templates := ∅;
     log := [];
     formatted := [];
     clipboard := [] |}.

(** A world whose style directory holds a style without a title, a text
    file, a style file that is no style document and a titled style. *)
Definition world_with_styles : World :=
  {| store := ∅;
     prefs := preferences;
     files := {[ "styles/ieee.csl" := untitled_style;
                 "styles/notes.txt" := "notes";
                 "styles/broken.csl" := "<html></html>";
                 "styles/acm.csl" := titled_style ]};
     listing :=
       {[ "styles" := ["ieee.csl"; "notes.txt"; "broken.csl"; "acm.csl"] ]};
     templates := ∅;
     log := [];
     formatted := [];
     clipboard := [] |}.

Definition typed_entity (pubType : Z) (title authors publication : string)
  : PaperEntity.t :=
  {| PaperEntity.id := "1";
     PaperEntity.title := title;
     PaperEntity.authors := authors;
     PaperEntity.publication := publication;
     PaperEntity.pubTime := "2020";
     PaperEntity.pubType := pubType;
     PaperEntity.publisher := EmptyString;
     PaperEntity.pages := EmptyString;
     PaperEntity.volume := EmptyString;
     PaperEntity.number := EmptyString;
     PaperEntity.doi := EmptyString;
     PaperEntity.codes := Some [] |}.

Definition entity : string -> string -> string -> PaperEntity.t :=
  typed_entity 1.

End Sample.

(* ===================================================================== *)
(** * Definitions used to state the properties *)
(* ===================================================================== *)

(** What [parseName] does with one token, in the words of the
    specification: [pieces] are the pieces of the trimmed token between
    single spaces, the last one is the family name and the ones before it,
    joined by single spaces, are the given name. *)
Definition name_of_pieces (token : string) (parsed : ParsedName) : Prop :=
  let trimmed := Js.trim token in
  (exists preceding,
      Js.split " " trimmed = preceding ++ [family parsed]
      /\ given parsed = Js.join " " preceding)
  /\ Js.includes " " (family parsed) = false
  /\ if Js.includes " " trimmed
     then given parsed +:+ " " +:+ family parsed = trimmed
     else given parsed = EmptyString /\ family parsed = trimmed.

(** The test the specification asks for: the word is none of the, a, an and
    is longer than three characters. *)
Definition significantWord `{Collaborators} (word : string) : bool :=
  negb (String.eqb (toLocaleLowerCase word) "the")
  && negb (String.eqb (toLocaleLowerCase word) "a")
  && negb (String.eqb (toLocaleLowerCase word) "an")
  && (3 <? Js.length word).

(** The title fragment the specification asks for: the normalized first
    significant word. *)
Fixpoint significantFragment `{Collaborators} (titleArray : list string)
  : string :=
  match titleArray with
  | [] => EmptyString
  | word :: rest =>
      if significantWord word then formatWord word
      else significantFragment rest
  end.

(** The [to] of the last item whose [from] is the publication. *)
Fixpoint lastTarget (items : list Replacement) (publication : string)
  : option string :=
  match items with
  | [] => None
  | item :: rest =>
      match lastTarget rest publication with
      | Some target => Some target
      | None =>
          if String.eqb (from item) publication then Some (to item) else None
      end
  end.

(** The publication after rewriting: the mapped name when rewriting
    is enabled, the replacement list is well formed and an item matches the
    publication exactly; the publication itself otherwise. *)
Definition rewrittenPublication (p : Preferences) (publication : string)
  : string :=
  if enableExportReplacement p then
    match exportReplacement p with
    | Some items => default publication (lastTarget items publication)
    | None => publication
    end
  else publication.

(** The escape of one character: ampersand, percent and hash get a
    backslash in front. *)
Definition escape_char (c : ascii) : string :=
  if Ascii.eqb c "&" || Ascii.eqb c "%" || Ascii.eqb c "#"
  then String "\" (String c EmptyString)
  else String c EmptyString.

Fixpoint escape_chars (s : string) : string :=
  match s with
  | EmptyString => EmptyString
  | String c s' => escape_char c +:+ escape_chars s'
  end.

(** [replaceAll] of one character by a text, character by character. *)
Fixpoint substitute_char (pat : ascii) (repl s : string) : string :=
  match s with
  | EmptyString => EmptyString
  | String c s' =>
      if Ascii.eqb c pat then repl +:+ substitute_char pat repl s'
      else String c (substitute_char pat repl s')
  end.

(** What one style file contributes to the listing, given its parsed
    XML: a descriptor when [style.info.title] can be read, whatever it
    holds, and nothing when the read throws. *)
Definition listedStyle `{Collaborators} (filePath : string)
  (xml : Js.value) : option StyleDescriptor :=
  match style_info_title xml with
  | Some title =>
      Some {| key := path_basename filePath ".csl"; name := title |}
  | None => None
  end.

(** The text ends with "$" and has no "$" before that. *)
Fixpoint closes (s : string) : bool :=
  match s with
  | EmptyString => false
  | String c r =>
      match r with
      | EmptyString => Ascii.eqb c "$"
      | String _ _ => negb (Ascii.eqb c "$") && closes r
      end
  end.

(** A span that [replace] inserts as it is when it is the replacement text:
    a "$", a character that starts no replacement pattern, text without
    "$", and the closing "$". *)
Definition plain_span (span : string) : bool :=
  match span with
  | String c (String d r) =>
      Ascii.eqb c "$"
      && negb (Ascii.eqb d "$" || Ascii.eqb d "&" || Ascii.eqb d "`"
               || Ascii.eqb d "'")
      && closes r
  | _ => false
  end.

(** A rendered body after its first chunk, as a list of segments: a masked
    span and the chunk of text that follows it.  [masked] is the text with
    the placeholder at every span, [restored] the text with the spans. *)
Fixpoint masked (segments : list (string * string)) : string :=
  match segments with
  | [] => EmptyString
  | (_, chunk) :: rest => placeholder +:+ chunk +:+ masked rest
  end.

Fixpoint restored (segments : list (string * string)) : string :=
  match segments with
  | [] => EmptyString
  | (span, chunk) :: rest => span +:+ chunk +:+ restored rest
  end.

(** The segments can be restored after the text [done]: every span is
    plain, the placeholder of a span is the first placeholder of the text
    at the time the span is put back, and the braced placeholder is not in
    the text then. *)
Fixpoint restorable (done : string) (segments : list (string * string))
  : Prop :=
  match segments with
  | [] => True
  | (span, chunk) :: rest =>
      plain_span span = true
      /\ Js.search placeholder done = None
      /\ Js.search placeholder_braced (done +:+ span +:+ chunk +:+ masked rest)
         = None
      /\ restorable (done +:+ span +:+ chunk) rest
  end.

Definition escape_segment (segment : string * string) : string * string :=
  (segment.1, escapeLaTexString segment.2).

(** The log entry for a custom style whose file is missing. *)
Definition missing_style_entry (csl : string) : LogEntry :=
  {| log_message := "CSL template file: " +:+ csl +:+ ".csl not found.";
     log_error := EmptyString;
     log_notify := true;
     log_tag := "Reference" |}.

(** Two worlds that differ at most in their store of objects. *)
Definition same_outside_store (w w' : World) : Prop :=
  prefs w' = prefs w /\ files w' = files w /\ listing w' = listing w
  /\ templates w' = templates w /\ log w' = log w
  /\ formatted w' = formatted w /\ clipboard w' = clipboard w.

(** The record after [replacePublication] under the preferences [p]. *)
Definition rewriteEntity (p : Preferences) (entity : PaperEntity.t)
  : PaperEntity.t :=
  PaperEntity.with_publication
    (rewrittenPublication p (PaperEntity.publication entity)) entity.

(** The log entry of a caught failure of the service. *)
Definition failure_entry (message error : string) : LogEntry :=
  {| log_message := message;
     log_error := error;
     log_notify := true;
     log_tag := "ReferenceService" |}.

(** Two worlds that differ at most in their store and their log. *)
Definition same_services (w w' : World) : Prop :=
  prefs w' = prefs w /\ files w' = files w /\ listing w' = listing w
  /\ templates w' = templates w /\ formatted w' = formatted w
  /\ clipboard w' = clipboard w.

(** The method [m] leaves the observation [f] of the world as it was,
    whether it returns or throws. *)
Definition preserves {A B} (f : World -> B) (m : M A) : Prop :=
  forall w, f (m w).2 = f w.

(** The world with other files on the disk. *)
Definition set_files (f : gmap string string -> gmap string string)
  (w : World) : World :=
  Build_World (store w) (prefs w) (f (files w)) (listing w) (templates w)
    (log w) (formatted w) (clipboard w).

(** What [export] does once the drafts are made: render them in the
    format asked for and write the text to the clipboard. *)
Definition export_drafts `{Collaborators} (paperEntityDrafts : list nat)
  (format : string) : M unit :=
  let* copyStr :=
    if String.eqb format "BibTex" then
      let* cite := toCite (SourceEntities paperEntityDrafts) in
      exportBibTexBody cite
    else if String.eqb format "BibTex-Key" then
      let* cite := toCite (SourceEntities paperEntityDrafts) in
      exportBibTexKey cite
    else if String.eqb format "PlainText" then
      let* cite := toCite (SourceEntities paperEntityDrafts) in
      exportPlainText cite
    else ret EmptyString in
  clipboard_writeText copyStr.

(** How often the character occurs in the text. *)
Fixpoint count_char (c : ascii) (s : string) : nat :=
  match s with
  | EmptyString => 0
  | String d s' => (if Ascii.eqb d c then 1 else 0) + count_char c s'
  end.

(** How many ampersand, percent and hash signs the text has. *)
Definition specials (s : string) : nat :=
  count_char "&" s + count_char "%" s + count_char "#" s.

(** Some character of the text satisfies the test. *)
Fixpoint has_char (test : ascii -> bool) (s : string) : bool :=
  match s with
  | EmptyString => false
  | String c s' => test c || has_char test s'
  end.

(** A math span as the regular expression delimits it: a "$", text without
    "$" and without line terminator, and a "$". *)
Definition math_span (span : string) : Prop :=
  exists inner,
    span = String "$" (inner +:+ "$")
    /\ Js.includes "$" inner = false
    /\ has_char Js.is_line_terminator inner = false.

(** The template registry and the template key with which
    [exportPlainText] calls the formatter in the world [w]: the selected
    style when it is built in or its file exists, with the content of the
    file registered at first use, and apa when the file is missing. *)
Definition resolveTemplate `{Collaborators} (w : World)
  : gmap string string * string :=
  let csl := selectedCSLStyle (prefs w) in
  if bool_decide (csl ∈ builtinKeys) then (templates w, csl)
  else
    match files w
          !! path_join (importedCSLStylesPath (prefs w)) (csl +:+ ".csl") with
    | Some content =>
        (if bool_decide (is_Some (templates w !! csl)) then templates w
         else <[csl := content]> (templates w), csl)
    | None => (templates w, "apa")
    end.

(* ===================================================================== *)
(** * Proof automation *)
(* ===================================================================== *)

(** Membership in, and absence from, a list of literals. *)
Ltac listed := rewrite !elem_of_cons; tauto.
Ltac unlisted :=
  rewrite !elem_of_cons, elem_of_nil;
  let Hin := fresh in
  intros Hin; decompose [or] Hin; first [discriminate | contradiction].

(** Unfolds the monad combinators and reduces the redexes that appear. *)
Ltac run_monad :=
  repeat (progress
            (unfold bind, ret, throw, gets, modify, lift, try_catch in *;
             cbv beta iota zeta)).

(* ===================================================================== *)
(** * Facts about the string primitives *)
(* ===================================================================== *)

Lemma append_cons (c : ascii) (s t : string) :
  String c s +:+ t = String c (s +:+ t).
Proof. reflexivity. Qed.

Lemma append_nil_l (s : string) : EmptyString +:+ s = s.
Proof. reflexivity. Qed.

Lemma append_nil_r (s : string) : s +:+ EmptyString = s.
Proof.
  induction s as [|c s IH]; [reflexivity|]. by rewrite append_cons, IH.
Qed.

Lemma append_assoc (s t u : string) : (s +:+ t) +:+ u = s +:+ t +:+ u.
Proof.
  induction s as [|c s IH]; [reflexivity|]. by rewrite !append_cons, IH.
Qed.

Lemma split_cons (sep : ascii) (s : string) :
  exists piece rest, Js.split sep s = piece :: rest.
Proof.
  induction s as [|c s [piece [rest IH]]]; cbn; [by eauto|].
  destruct (Ascii.eqb c sep); [by eauto|]. rewrite IH. by eauto.
Qed.

Lemma split_no_separator (sep : ascii) (s : string) :
  Js.includes sep s = false -> Js.split sep s = [s].
Proof.
  induction s as [|c s IH]; cbn; [done|].
  intros [Hc Hs]%orb_false_iff. rewrite Hc, (IH Hs). done.
Qed.

Lemma split_pieces_clean (sep : ascii) (s : string) :
  Forall (fun piece => Js.includes sep piece = false) (Js.split sep s).
Proof.
  induction s as [|c s IH]; cbn; [by repeat constructor|].
  destruct (Ascii.eqb c sep) eqn:Hc; [by constructor|].
  destruct (Js.split sep s) as [|piece rest]; [by repeat constructor; cbn; rewrite Hc|].
  inversion IH as [|? ? Hp Hr]; subst. constructor; [|done].
  cbn. by rewrite Hc, Hp.
Qed.

Lemma join_cons (sep p q : string) (rest : list string) :
  Js.join sep (p :: q :: rest) = p +:+ sep +:+ Js.join sep (q :: rest).
Proof. reflexivity. Qed.

(** Joining what [split] produced with the separator gives the string
    back. *)
Lemma join_split (sep : ascii) (s : string) :
  Js.join (String sep EmptyString) (Js.split sep s) = s.
Proof.
  induction s as [|c s IH]; [reflexivity|]. cbn [Js.split].
  destruct (split_cons sep s) as (piece & rest & E). rewrite E in *.
  destruct (Ascii.eqb_spec c sep) as [->|Hc].
  - rewrite join_cons, IH. reflexivity.
  - destruct rest as [|piece' rest].
    + cbn in IH. by subst.
    + rewrite join_cons in *. by rewrite append_cons, IH.
Qed.

Lemma join_snoc (sep : string) (parts : list string) (p last : string) :
  Js.join sep ((p :: parts) ++ [last])
  = Js.join sep (p :: parts) +:+ sep +:+ last.
Proof.
  revert p. induction parts as [|q parts IH]; intros p; [reflexivity|].
  cbn [app] in *. rewrite !join_cons, IH. by rewrite !append_assoc.
Qed.

Lemma take_last_split {A} (l : list A) (d : A) :
  l <> [] -> take (List.length l - 1)%nat l ++ [List.last l d] = l.
Proof.
  induction l as [|a l IH]; [done|]. intros _.
  destruct l as [|b l]; [reflexivity|].
  replace (List.length (a :: b :: l) - 1)%nat
    with (S (List.length (b :: l) - 1)) by (cbn; lia).
  change (List.last (a :: b :: l) d) with (List.last (b :: l) d).
  cbn [take app]. f_equal. by apply IH.
Qed.

(* ===================================================================== *)
(** * Author name parser *)
(* ===================================================================== *)

Lemma parseName_pieces (token : string) :
  name_of_pieces token (parseName token).
Proof.
  unfold name_of_pieces, parseName. cbn [given family].
  set (trimmed := Js.trim token). set (pieces := Js.split " " trimmed).
  assert (Hne : pieces <> []).
  { destruct (split_cons " " trimmed) as (p & r & E).
    unfold pieces. by rewrite E. }
  pose proof (take_last_split pieces EmptyString Hne) as Hsplit.
  set (preceding := take (List.length pieces - 1)%nat pieces) in *.
  set (last := List.last pieces EmptyString) in *.
  assert (Hclean : Js.includes " " last = false).
  { pose proof (split_pieces_clean " " trimmed) as Hall.
    fold pieces in Hall. rewrite <- Hsplit in Hall.
    apply Forall_app in Hall as [_ Hall]. by inversion Hall. }
  split; [by exists preceding|]. split; [done|].
  destruct (Js.includes " " trimmed) eqn:Hspace.
  - pose proof (join_split " " trimmed) as Hjoin. fold pieces in Hjoin.
    rewrite <- Hsplit in Hjoin. destruct preceding as [|p parts].
    + cbn in Hjoin. congruence.
    + by rewrite join_snoc in Hjoin.
  - pose proof (split_no_separator " " trimmed Hspace) as Hone.
    subst preceding last. fold pieces in Hone. by rewrite Hone.
Qed.

(** C6: the parser chooses one delimiter for the whole string, ";" when the
    string contains one and "," otherwise, splits on it, and turns every
    token into a name: the token is trimmed and cut at single spaces, the
    last piece is the family name and the pieces before it, joined by single
    spaces, are the given name, so that a token with an inner space reads
    given, space, family, and a token without one has an empty given name
    and is its own family name.  "Jane Doe; John A. Smith" gives Jane Doe
    and John A. Smith. *)
Theorem parseAuthors_delimiter_and_names (authors : string) :
  let delimiter :=
    if Js.includes ";" authors then ";"%char else ","%char in
  parseAuthors authors = map parseName (Js.split delimiter authors)
  /\ Forall2 name_of_pieces (Js.split delimiter authors)
       (parseAuthors authors)
  /\ parseAuthors "Jane Doe; John A. Smith"
     = [ {| given := "Jane"; family := "Doe" |};
         {| given := "John A."; family := "Smith" |} ].
Proof.
  cbn zeta. split; [|split; [|reflexivity]].
  - unfold parseAuthors. by destruct (Js.includes ";" authors).
  - unfold parseAuthors.
    destruct (Js.includes ";" authors);
      apply Forall2_fmap_r, Forall_Forall2_diag, Forall_forall;
      intros token _; apply parseName_pieces.
Qed.

(** C4, as the code has it: the empty author string parses to one name
    whose given and family names are both empty; the parser is a total
    function and raises nothing. *)
Theorem parseAuthors_empty_string :
  parseAuthors EmptyString
  = [ {| given := EmptyString; family := EmptyString |} ].
Proof. reflexivity. Qed.

(** C4 as stated fails: the empty author string does not parse to the empty
    sequence. *)
Lemma parseAuthors_empty_string_not_nil : parseAuthors EmptyString <> [].
Proof. discriminate. Qed.

(** The name array is never empty, whatever the author string. *)
Lemma parseAuthors_cons (authors : string) :
  exists first others, parseAuthors authors = first :: others.
Proof.
  unfold parseAuthors.
  destruct (Js.includes ";" authors);
    [destruct (split_cons ";" authors) as (p & r & ->)
    |destruct (split_cons "," authors) as (p & r & ->)]; cbn; eauto.
Qed.

(* ===================================================================== *)
(** * Publication type *)
(* ===================================================================== *)

(** C5, as the code has it: for a type code from 0 to 3 the type of the
    citation is the table entry at that code, one of article,
    paper-conference and book; for every other code the table lookup is
    undefined and the citation has no type. *)
Theorem parseSingle_type_table `{Collaborators} (p : PaperEntity.t) :
  let code := PaperEntity.pubType p in
  match CSL.type (parseSingle p) with
  | Some name =>
      0 <= code <= 3
      /\ typeTable !! Z.to_nat code = Some name
      /\ name ∈ ["article"; "paper-conference"; "book"]
  | None => code < 0 \/ 3 < code
  end.
Proof.
  cbn. unfold index. destruct (Z.leb_spec 0 (PaperEntity.pubType p)); [|lia].
  destruct (Z.to_nat (PaperEntity.pubType p)) as [|[|[|[|n]]]] eqn:E; cbn.
  all: try (split; [lia|split; [done|listed]]).
  destruct n; cbn; lia.
Qed.

(** C5 as stated fails: the code 4 lies outside the table and the citation
    gets no type at all, not the type article. *)
Lemma parseSingle_type_undefined :
  CSL.type (parseSingle (Sample.typed_entity 4 "A Title" "Jane Doe" "ICML"))
  = None
  /\ CSL.type (parseSingle (Sample.typed_entity 4 "A Title" "Jane Doe" "ICML"))
     <> Some "article".
Proof. split; [reflexivity|discriminate]. Qed.

(* ===================================================================== *)
(** * Citation key *)
(* ===================================================================== *)

(** No word fails the test of the title loop: a word cannot be both "the"
    and "a". *)
Lemma wordTest_true `{Collaborators} (word : string) : wordTest word = true.
Proof.
  unfold wordTest.
  destruct (String.eqb_spec (toLocaleLowerCase word) "the") as [->|]; done.
Qed.

Lemma titleFragment_first `{Collaborators} (word : string)
  (rest : list string) :
  titleFragment (word :: rest) = formatWord word.
Proof. cbn. by rewrite wordTest_true. Qed.

(** C1 fails on the code: the title loop stops at the first piece of the
    title whatever it is, so the key of every record ends with the
    normalized first piece; for the title "The Balanced Meta-Softmax" the
    key is ren2020the, where the first significant word is balanced. *)
Theorem citeKey_ends_with_first_title_word :
  (forall (C : Collaborators) (p : PaperEntity.t),
      exists first others name names,
        Js.split " " (PaperEntity.title p) = first :: others
        /\ parseAuthors (PaperEntity.authors p) = name :: names
        /\ CSL.citation_key (parseSingle p)
           = Js.toLowerCase (family name) +:+ PaperEntity.pubTime p
               +:+ formatWord first)
  /\ let p :=
       Sample.entity "The Balanced Meta-Softmax" "Jiawei Ren" "NeurIPS" in
     CSL.citation_key (parseSingle p) = "ren2020the"
     /\ significantFragment (Js.split " " (PaperEntity.title p)) = "balanced".
Proof.
  split; [|by vm_compute].
  intros C p.
  destruct (split_cons " " (PaperEntity.title p)) as (first & others & Ht).
  destruct (parseAuthors_cons (PaperEntity.authors p))
    as (name & names & Ha).
  exists first, others, name, names. split; [done|]. split; [done|].
  cbn. unfold citeKeyOf. rewrite Ha, Ht, titleFragment_first.
  by rewrite append_nil_l, append_assoc.
Qed.

(* ===================================================================== *)
(** * Publication name rewriting *)
(* ===================================================================== *)

Lemma fold_insert_lookup (items : list Replacement) (m : gmap string string)
  (k : string) :
  fold_left (fun m entry => <[entry.1 := entry.2]> m)
    (map (fun item => (from item, to item)) items) m !! k
  = match lastTarget items k with
    | Some target => Some target
    | None => m !! k
    end.
Proof.
  revert m. induction items as [|item rest IH]; intros m; [reflexivity|].
  cbn [map fold_left lastTarget]. rewrite IH.
  destruct (lastTarget rest k); [reflexivity|]. cbn [fst snd].
  destruct (String.eqb_spec (from item) k) as [->|Hk].
  - by rewrite lookup_insert_eq.
  - by rewrite lookup_insert_ne.
Qed.

Lemma Map_new_lookup (items : list Replacement) (k : string) :
  Map_new (map (fun item => (from item, to item)) items) !! k
  = lastTarget items k.
Proof.
  unfold Map_new. rewrite fold_insert_lookup, lookup_empty.
  by destruct (lastTarget items k).
Qed.

Lemma with_publication_same (entity : PaperEntity.t) :
  PaperEntity.with_publication (PaperEntity.publication entity) entity
  = entity.
Proof. by destruct entity. Qed.

(** C3, as the code has it: [replacePublication] returns the very reference
    it was given and rewrites the object behind it in place.  After the
    call the object's publication is the mapped name when rewriting is
    enabled and the original publication is exactly the [from] of an item
    of the mapping, and the original publication otherwise; its other
    fields, the other objects and the rest of the world are as before,
    except that a malformed mapping is reported in the log. *)
Theorem replacePublication_in_place (w : World) (source : nat)
  (entity : PaperEntity.t) :
  store w !! source = Some entity ->
  exists w',
    replacePublication source w = (Ok source, w')
    /\ store w'
       = <[source :=
             PaperEntity.with_publication
               (rewrittenPublication (prefs w)
                  (PaperEntity.publication entity)) entity]> (store w)
    /\ prefs w' = prefs w /\ files w' = files w /\ listing w' = listing w
    /\ templates w' = templates w /\ formatted w' = formatted w
    /\ clipboard w' = clipboard w
    /\ (log w' = log w
        \/ enableExportReplacement (prefs w) = true
           /\ exportReplacement (prefs w) = None).
Proof.
  intros Hsrc.
  assert (Hid : store w = <[source := entity]> (store w))
    by (by rewrite insert_id).
  unfold replacePublication, rewrittenPublication, try_catch, bind, gets,
    logService_error, modify, ret, throw, deref.
  destruct w as [st pf fl ls tp lg fm cb]. cbn in *.
  destruct (enableExportReplacement pf) eqn:Hen; cbn.
  - destruct (exportReplacement pf) as [items|] eqn:Hrep; cbn.
    + rewrite Hsrc, Map_new_lookup.
      destruct (lastTarget items (PaperEntity.publication entity))
        as [target|]; cbn.
      * eexists. split; [reflexivity|]. cbn. by intuition.
      * eexists. split; [reflexivity|]. cbn.
        rewrite with_publication_same. by intuition.
    + eexists. split; [reflexivity|]. cbn.
      rewrite with_publication_same. by intuition.
  - eexists. split; [reflexivity|]. cbn.
    rewrite with_publication_same. by intuition.
Qed.

(** C3 as stated fails: with the mapping from NeurIPS to the full conference
    name, the record that the caller passed has another publication after
    the call, and the value returned is that same reference. *)
Lemma replacePublication_mutates_argument :
  let entity := Sample.entity "A Title" "Jane Doe" "NeurIPS" in
  let w := set_store (insert 7%nat entity) Sample.world in
  store w !! 7%nat = Some entity
  /\ (replacePublication 7%nat w).1 = Ok 7%nat
  /\ store (replacePublication 7%nat w).2 !! 7%nat
     = Some (PaperEntity.with_publication
               "Conference on Neural Information Processing Systems (NeurIPS)"
               entity)
  /\ store (replacePublication 7%nat w).2 !! 7%nat <> store w !! 7%nat.
Proof. by vm_compute. Qed.

Lemma replacePublication_in_place_witness :
  let entity := Sample.entity "A Title" "Jane Doe" "NeurIPS" in
  let w := set_store (insert 7%nat entity) Sample.world in
  exists w',
    replacePublication 7%nat w = (Ok 7%nat, w')
    /\ store w'
       = <[7%nat :=
             PaperEntity.with_publication
               (rewrittenPublication (prefs w)
                  (PaperEntity.publication entity)) entity]> (store w).
Proof.
  cbn zeta.
  destruct (replacePublication_in_place
              (set_store (insert 7%nat
                 (Sample.entity "A Title" "Jane Doe" "NeurIPS")) Sample.world)
              7%nat (Sample.entity "A Title" "Jane Doe" "NeurIPS"))
    as (w' & Hrun & Hstore & _); [by vm_compute|].
  exists w'. by split.
Defined.

(* ===================================================================== *)
(** * Plain-text export and style resolution *)
(* ===================================================================== *)

(** C7: when the selected style is none of apa, vancouver and harvard1 and
    its backing file does not exist, [exportPlainText] returns exactly what
    it returns for the same cite data with the style apa selected, and the
    missing file is reported by one entry appended to the log, not
    raised. *)
Theorem exportPlainText_missing_style_is_apa `{Collaborators}
  (cite : option Cite) (w : World) :
  let csl := selectedCSLStyle (prefs w) in
  csl ∉ builtinKeys ->
  files w !! path_join (importedCSLStylesPath (prefs w)) (csl +:+ ".csl")
    = None ->
  (exportPlainText cite w).1
    = (exportPlainText cite (select_style "apa" w)).1
  /\ log (exportPlainText cite w).2 = log w ++ [missing_style_entry csl].
Proof.
  cbn zeta. intros Hcustom Hmissing.
  unfold exportPlainText, existsSync, logService_error. run_monad.
  cbn [prefs select_style set_prefs selectedCSLStyle].
  rewrite (bool_decide_eq_false_2 _ Hcustom), Hmissing.
  rewrite (bool_decide_eq_false_2 (is_Some None));
    [|by intros [? ?]].
  rewrite (bool_decide_eq_true_2 ("apa" ∈ builtinKeys));
    [|by apply list_elem_of_here].
  destruct cite as [data|]; cbn; [|done].
  by destruct (format_bibliography (templates w) "apa" data).
Qed.

Lemma exportPlainText_missing_style_is_apa_witness :
  let w := select_style "ieee" Sample.world in
  let cite := Some [parseSingle (Sample.entity "A Title" "Jane Doe" "ICML")] in
  (exportPlainText cite w).1 = Ok "A Title (apa)."
  /\ (exportPlainText cite w).1
     = (exportPlainText cite (select_style "apa" w)).1
  /\ log (exportPlainText cite w).2 = [missing_style_entry "ieee"].
Proof.
  cbn zeta. split; [by vm_compute|].
  apply (exportPlainText_missing_style_is_apa
           (Some [parseSingle (Sample.entity "A Title" "Jane Doe" "ICML")])
           (select_style "ieee" Sample.world)).
  - cbn. unfold builtinKeys. unlisted.
  - by vm_compute.
Defined.

(* ===================================================================== *)
(** * The export facade *)
(* ===================================================================== *)

Lemma drafts_allocated `{Collaborators} (paperEntities : list PaperEntity.t)
  (w : World) :
  exists drafts w',
    mapM newPaperEntity paperEntities w = (Ok drafts, w')
    /\ same_outside_store w w'.
Proof.
  revert w. induction paperEntities as [|p l IH]; intros w.
  - exists [], w. by repeat split.
  - cbn [mapM]. unfold bind at 1. unfold newPaperEntity at 1.
    destruct (IH (set_store (insert (fresh (dom (store w))) p) w))
      as (drafts & w' & Hrun & Hsame).
    unfold bind at 1. rewrite Hrun. eexists _, w'. split; [reflexivity|].
    unfold same_outside_store in *. by destruct w.
Qed.

(** C10: for a format that is none of BibTex, BibTex-Key and PlainText,
    [export] returns normally, writes the empty string and nothing else to
    the clipboard, calls no formatter and logs nothing. *)
Theorem export_unknown_format_writes_empty `{Collaborators}
  (paperEntities : list PaperEntity.t) (format : string) (w : World) :
  format ∉ ["BibTex"; "BibTex-Key"; "PlainText"] ->
  exists w',
    export paperEntities format w = (Ok tt, w')
    /\ clipboard w' = EmptyString :: clipboard w
    /\ formatted w' = formatted w
    /\ log w' = log w.
Proof.
  intros Hformat.
  rewrite !elem_of_cons, elem_of_nil in Hformat.
  assert (String.eqb format "BibTex" = false) as E1
    by (apply String.eqb_neq; tauto).
  assert (String.eqb format "BibTex-Key" = false) as E2
    by (apply String.eqb_neq; tauto).
  assert (String.eqb format "PlainText" = false) as E3
    by (apply String.eqb_neq; tauto).
  destruct (drafts_allocated paperEntities w)
    as (drafts & w1 & Hrun & Hsame).
  unfold export, errorcatching, try_catch. unfold bind at 1.
  rewrite Hrun, E1, E2, E3. cbn.
  eexists. split; [reflexivity|]. cbn.
  unfold same_outside_store in Hsame. by intuition congruence.
Qed.

Lemma export_unknown_format_writes_empty_witness :
  exists w',
    export [Sample.entity "A Title" "Jane Doe" "NeurIPS"] "RIS" Sample.world
    = (Ok tt, w')
    /\ clipboard w' = [EmptyString]
    /\ formatted w' = []
    /\ log w' = [].
Proof.
  apply (export_unknown_format_writes_empty
           [Sample.entity "A Title" "Jane Doe" "NeurIPS"] "RIS" Sample.world).
  unlisted.
Defined.

(** With no records the facade builds a cite object without data. *)
Lemma toCite_no_entities `{Collaborators} (w : World) :
  toCite (SourceEntities []) w = (Ok (Some []), w).
Proof. reflexivity. Qed.

(* ===================================================================== *)
(** * Style listing *)
(* ===================================================================== *)

Lemma parsePromise_parsed `{Collaborators} (w : World)
  (filePath content : string) (xml : Js.value) :
  files w !! filePath = Some content ->
  xml_parse content = Ok xml ->
  parsePromise filePath w = (Ok (listedStyle filePath xml), w).
Proof.
  intros Hfile Hxml. unfold parsePromise, readFileSync, listedStyle.
  run_monad. rewrite Hfile. cbv beta iota. rewrite Hxml. cbv beta iota.
  by destruct (style_info_title xml).
Qed.

Lemma omap_map_id {A B} (f : A -> option B) (l : list A) :
  omap (fun item => item) (map f l) = omap f l.
Proof.
  induction l as [|a l IH]; [done|]. csimpl. rewrite IH.
  by destruct (f a).
Qed.

Lemma Promise_all_fulfilled {A} (values : list A) :
  Promise_all (map Ok values) = Ok values.
Proof.
  induction values as [|a l IH]; [done|]. cbn [map Promise_all].
  by rewrite IH.
Qed.

(** X18: when the directory can be listed and every style file in it can be
    read and parsed, the listing is the three built-in styles followed, in
    the order of the directory, by one descriptor for each file with the
    extension csl whose [style.info.title] can be read. *)
Lemma loadCSLStyles_listing `{Collaborators} (w : World)
  (names : list string) (parsed : string -> Js.value) :
  let dir := importedCSLStylesPath (prefs w) in
  dir <> EmptyString ->
  listing w !! dir = Some names ->
  (forall file,
      file ∈ names -> Js.endsWith ".csl" file = true ->
      exists content,
        files w !! path_join dir file = Some content
        /\ xml_parse content = Ok (parsed file)) ->
  loadCSLStyles w
  = (Ok (CSLStyles
           ++ omap (fun file => listedStyle (path_join dir file) (parsed file))
                (filter (fun file => Js.endsWith ".csl" file = true) names)),
     w).
Proof.
  cbn zeta. intros Hdir Hlist Hfiles.
  unfold loadCSLStyles, errorcatching, readdirSync.
  apply String.eqb_neq in Hdir. run_monad. rewrite Hdir, Hlist.
  cbv beta iota.
  set (dir := importedCSLStylesPath (prefs w)) in *.
  set (styleFiles := filter (fun file => Js.endsWith ".csl" file = true) names).
  assert (Hrun :
    mapM (fun file => promise (parsePromise (path_join dir file)))
      styleFiles w
    = (Ok (map (fun file => Ok (listedStyle (path_join dir file)
                                  (parsed file))) styleFiles), w)).
  { assert (Hall : forall file, file ∈ styleFiles ->
       exists content, files w !! path_join dir file = Some content
                       /\ xml_parse content = Ok (parsed file)).
    { intros file [Hcsl Hin]%list_elem_of_filter. by apply Hfiles. }
    clearbody styleFiles. clear Hfiles Hlist.
    induction styleFiles as [|file rest IH]; [done|].
    cbn [mapM map]. unfold promise at 1. run_monad.
    destruct (Hall file) as (content & Hfile & Hxml); [by left|].
    rewrite (parsePromise_parsed w _ content (parsed file)) by done.
    rewrite IH; [done|]. intros f Hf. apply Hall. by right. }
  rewrite Hrun. cbv beta iota.
  rewrite <- (map_map _ Ok), Promise_all_fulfilled. cbv beta iota.
  by rewrite omap_map_id.
Qed.

Lemma loadCSLStyles_listing_witness :
  loadCSLStyles Sample.world_with_styles
  = (Ok (CSLStyles
           ++ [ {| key := "ieee"; name := Js.Undefined |};
                {| key := "acm"; name := Js.Str "IEEE" |} ]),
     Sample.world_with_styles).
Proof.
  refine (eq_trans
            (loadCSLStyles_listing Sample.world_with_styles
               ["ieee.csl"; "notes.txt"; "broken.csl"; "acm.csl"]
               (fun file =>
                  if String.eqb file "ieee.csl" then
                    Js.Obj [("style",
                      Js.Obj [("info", Js.Obj [("id", Js.Str "ieee")])])]
                  else if String.eqb file "acm.csl" then
                    Js.Obj [("style",
                      Js.Obj [("info", Js.Obj [("title", Js.Str "IEEE")])])]
                  else Js.Obj [])
               _ _ _) _);
    try by vm_compute.
  intros file Hin Hcsl. rewrite !elem_of_cons, elem_of_nil in Hin.
  destruct Hin as [-> | [-> | [-> | [-> | []]]]];
    try discriminate Hcsl; eexists; by vm_compute.
Defined.

(** C8 fails on the code: a style file whose XML has the element
    style.info without a title in it is not omitted; it is listed after the
    built-in styles under its base name, with an undefined name. *)
Theorem loadCSLStyles_lists_untitled_style `{Collaborators} (w : World)
  (file content : string) (info : list (string * Js.value)) :
  let dir := importedCSLStylesPath (prefs w) in
  dir <> EmptyString ->
  listing w !! dir = Some [file] ->
  Js.endsWith ".csl" file = true ->
  files w !! path_join dir file = Some content ->
  xml_parse content
    = Ok (Js.Obj [("style", Js.Obj [("info", Js.Obj info)])]) ->
  Js.assoc "title" info = Js.Undefined ->
  loadCSLStyles w
  = (Ok (CSLStyles
           ++ [ {| key := path_basename (path_join dir file) ".csl";
                   name := Js.Undefined |} ]), w).
Proof.
  cbn zeta. intros Hdir Hlist Hcsl Hfile Hxml Htitle.
  unfold loadCSLStyles, errorcatching, readdirSync.
  apply String.eqb_neq in Hdir. run_monad. rewrite Hdir, Hlist.
  cbv beta iota. rewrite filter_cons_True by done. rewrite filter_nil.
  cbn [mapM]. unfold promise, parsePromise, readFileSync. run_monad.
  rewrite Hfile. cbv beta iota. rewrite Hxml. cbv beta iota.
  unfold style_info_title. cbn. by rewrite Htitle.
Qed.

Lemma loadCSLStyles_lists_untitled_style_witness :
  loadCSLStyles Sample.world_with_style
  = (Ok (CSLStyles ++ [ {| key := "ieee"; name := Js.Undefined |} ]),
     Sample.world_with_style).
Proof.
  refine (eq_trans
            (loadCSLStyles_lists_untitled_style Sample.world_with_style
               "ieee.csl" Sample.untitled_style [("id", Js.Str "ieee")]
               _ _ _ _ _ _) _);
    by vm_compute.
Defined.

(* ===================================================================== *)
(** * BibTeX body *)
(* ===================================================================== *)

(** A replacement text without "$" is inserted as it is. *)
Lemma getSubstitution_plain (matched before after repl : string) :
  Js.includes "$" repl = false ->
  Js.getSubstitution matched before after repl = repl.
Proof.
  induction repl as [|c r IH]; [done|]. cbn [Js.includes Js.getSubstitution].
  intros [Hc Hr]%orb_false_iff. rewrite Hc. by rewrite (IH Hr).
Qed.

Lemma replaceAll_go_plain (pat : ascii) (repl before s : string) :
  Js.includes "$" repl = false ->
  Js.replaceAll_go pat repl before s = substitute_char pat repl s.
Proof.
  intros Hplain. revert before.
  induction s as [|c s IH]; intros before; [done|].
  cbn [Js.replaceAll_go substitute_char]. cbv zeta.
  rewrite IH, getSubstitution_plain by done. reflexivity.
Qed.

(** The escape pass works character by character: every ampersand, percent
    and hash sign of the text gets a backslash in front, and every other
    character stays. *)
Lemma escapeLaTexString_chars (s : string) :
  escapeLaTexString s = escape_chars s.
Proof.
  unfold escapeLaTexString, Js.replaceAll.
  rewrite !replaceAll_go_plain by reflexivity.
  induction s as [|c s IH]; [reflexivity|].
  cbn [substitute_char escape_chars]. unfold escape_char.
  destruct (Ascii.eqb_spec c "&") as [->|Hamp].
  { repeat (rewrite ?append_cons, ?append_nil_l; cbn). by rewrite IH. }
  destruct (Ascii.eqb_spec c "%") as [->|Hpct].
  { repeat (rewrite ?append_cons, ?append_nil_l; cbn). by rewrite IH. }
  destruct (Ascii.eqb_spec c "#") as [->|Hhash].
  { repeat (rewrite ?append_cons, ?append_nil_l; cbn). by rewrite IH. }
  cbn [substitute_char orb].
  apply Ascii.eqb_neq in Hpct, Hhash. rewrite Hpct. cbn [substitute_char].
  rewrite Hhash, IH. reflexivity.
Qed.

Lemma escape_chars_app (s t : string) :
  escape_chars (s +:+ t) = escape_chars s +:+ escape_chars t.
Proof.
  induction s as [|c s IH]; [reflexivity|].
  rewrite append_cons. cbn [escape_chars]. by rewrite IH, append_assoc.
Qed.

(** ** Finding the first placeholder *)

Lemma search_cons (pat : string) (c : ascii) (s : string) :
  Js.search pat (String c s)
  = match Js.strip_prefix pat (String c s) with
    | Some after => Some (EmptyString, after)
    | None =>
        match Js.search pat s with
        | Some (before, after) => Some (String c before, after)
        | None => None
        end
    end.
Proof. reflexivity. Qed.

Lemma strip_prefix_self (pat post : string) :
  Js.strip_prefix pat (pat +:+ post) = Some post.
Proof.
  induction pat as [|a pat IH]; [by destruct post|].
  rewrite append_cons. cbn [Js.strip_prefix].
  by rewrite Ascii.eqb_refl.
Qed.

(** A pattern without the character [m] that is no prefix of [s] is no
    prefix of [s] followed by [m] either. *)
Lemma strip_prefix_none_extend (m : ascii) (p s q : string) :
  Js.includes m p = false ->
  Js.strip_prefix p s = None ->
  Js.strip_prefix p (s +:+ String m q) = None.
Proof.
  revert s. induction p as [|a p IH]; intros s Hfree Hnone.
  { by destruct s. }
  cbn [Js.includes] in Hfree. apply orb_false_iff in Hfree as [Ham Hfree].
  destruct s as [|b s].
  - rewrite append_nil_l. cbn [Js.strip_prefix]. by rewrite Ham.
  - rewrite append_cons. cbn [Js.strip_prefix] in *.
    destruct (Ascii.eqb a b); [by apply IH|done].
Qed.

(** A pattern whose first character [m] does not come back in it has its
    first occurrence in [pre ++ pattern ++ post] right after [pre], when
    [pre] does not contain it. *)
Lemma search_first (m : ascii) (p pre post : string) :
  Js.includes m p = false ->
  Js.search (String m p) pre = None ->
  Js.search (String m p) (pre +:+ String m p +:+ post) = Some (pre, post).
Proof.
  intros Hfree. induction pre as [|c pre IH]; intros Hnone.
  - rewrite append_nil_l.
    pose proof (strip_prefix_self (String m p) post) as Hself.
    destruct (String m p +:+ post) eqn:E; [done|].
    by rewrite search_cons, Hself.
  - rewrite search_cons in Hnone.
    destruct (Js.strip_prefix (String m p) (String c pre)) eqn:Hstrip;
      [done|].
    destruct (Js.search (String m p) pre) as [[? ?]|] eqn:Hrest; [done|].
    rewrite append_cons, search_cons, IH by done.
    assert (Js.strip_prefix (String m p)
              (String c (pre +:+ String m p +:+ post)) = None) as ->; [|done].
    cbn [Js.strip_prefix] in Hstrip |- *. destruct (Ascii.eqb m c); [|done].
    rewrite (append_cons m p post). by apply strip_prefix_none_extend.
Qed.

(** ** Putting a span back *)

Lemma getSubstitution_closes (matched before after r : string) :
  closes r = true -> Js.getSubstitution matched before after r = r.
Proof.
  induction r as [|c r IH]; [done|]. cbn [closes Js.getSubstitution].
  destruct r as [|d r].
  - intros ->%Ascii.eqb_eq. reflexivity.
  - intros [Hc Hr]%andb_true_iff. apply negb_true_iff in Hc.
    rewrite Hc. by rewrite (IH Hr).
Qed.

Lemma getSubstitution_plain_span (matched before after span : string) :
  plain_span span = true ->
  Js.getSubstitution matched before after span = span.
Proof.
  destruct span as [|c [|d r]]; [done..|]. unfold plain_span.
  intros [[Hc Hd]%andb_true_iff Hr]%andb_true_iff.
  apply negb_true_iff in Hd.
  repeat (apply orb_false_iff in Hd as [Hd ?]).
  cbn [Js.getSubstitution]. rewrite Hc, Hd.
  repeat match goal with E : Ascii.eqb d _ = false |- _ => rewrite E end.
  cbv iota. f_equal. destruct r as [|e r]; [done|].
  change (String d (Js.getSubstitution matched before after (String e r))
          = String d (String e r)).
  by rewrite getSubstitution_closes.
Qed.

Lemma search_placeholder (done rest : string) :
  Js.search placeholder done = None ->
  Js.search placeholder (done +:+ placeholder +:+ rest) = Some (done, rest).
Proof.
  intros Hdone.
  exact (search_first "M" "ATHENVDOLLAR{i}" done rest eq_refl Hdone).
Qed.

(** One turn of the restore loop on a text whose first placeholder follows
    [done]. *)
Lemma restore_step (done span rest : string) :
  plain_span span = true ->
  Js.search placeholder done = None ->
  Js.search placeholder_braced (done +:+ span +:+ rest) = None ->
  Js.replace placeholder_braced span
    (Js.replace placeholder span (done +:+ placeholder +:+ rest))
  = done +:+ span +:+ rest.
Proof.
  intros Hspan Hdone Hbraced. unfold Js.replace at 2.
  rewrite (search_placeholder done rest Hdone).
  rewrite getSubstitution_plain_span by done.
  unfold Js.replace. by rewrite Hbraced.
Qed.

Lemma restoreMathEnvs_cons (span : string) (spans : list string)
  (body : string) :
  restoreMathEnvs (span :: spans) body
  = restoreMathEnvs spans
      (Js.replace placeholder_braced span (Js.replace placeholder span body)).
Proof. reflexivity. Qed.

Lemma restoreMathEnvs_segments (done : string)
  (segments : list (string * string)) :
  restorable done segments ->
  restoreMathEnvs (map fst segments) (done +:+ masked segments)
  = done +:+ restored segments.
Proof.
  revert done. induction segments as [|[span chunk] rest IH]; intros done.
  { reflexivity. }
  intros (Hspan & Hdone & Hbraced & Hrest).
  cbn [map fst masked restored].
  rewrite restoreMathEnvs_cons, restore_step by done.
  replace (done +:+ span +:+ chunk +:+ masked rest)
    with ((done +:+ span +:+ chunk) +:+ masked rest)
    by (by rewrite !append_assoc).
  rewrite (IH _ Hrest). by rewrite !append_assoc.
Qed.

Lemma escape_chars_masked (segments : list (string * string)) :
  escape_chars (masked segments) = masked (map escape_segment segments).
Proof.
  induction segments as [|[span chunk] rest IH]; [done|].
  cbn [masked map escape_segment fst snd].
  rewrite !escape_chars_app, IH, (escapeLaTexString_chars chunk).
  reflexivity.
Qed.

(** X12: what the code achieves for plain spans: when the formatter renders
    the masked data as a first chunk followed by one placeholder and one
    chunk for every masked span, in order, and the escaped text is
    [restorable], the body is the escaped chunks with every span back,
    unchanged, where its placeholder was. *)
Lemma exportBibTexBody_restores_plain_spans `{Collaborators} (data : Cite)
  (w : World) (first : string) (segments : list (string * string)) :
  format_bibtex (maskTitles data).2 = Ok (first +:+ masked segments) ->
  map fst segments = (maskTitles data).1 ->
  restorable (escapeLaTexString first) (map escape_segment segments) ->
  (exportBibTexBody (Some data) w).1
  = Ok (escapeLaTexString first
          +:+ restored (map escape_segment segments)).
Proof.
  intros Hrender Hspans Hrestorable.
  unfold exportBibTexBody, errorcatching, cite_format.
  destruct (maskTitles data) as [mathEnvStrs data'] eqn:Hmask.
  cbn [fst snd] in *. run_monad. rewrite Hrender. cbv beta iota.
  cbn [fst]. f_equal. rewrite <- Hspans.
  rewrite (escapeLaTexString_chars (first +:+ masked segments)).
  rewrite escape_chars_app, escape_chars_masked, <- escapeLaTexString_chars.
  replace (map fst segments) with (map fst (map escape_segment segments))
    by (rewrite map_map; by apply map_ext).
  by apply restoreMathEnvs_segments.
Qed.

Lemma exportBibTexBody_restores_plain_spans_witness :
  (exportBibTexBody
     (Some [parseSingle
              (Sample.entity "From $a_1$ to $b_2$" "Jane Doe" "R&D")])
     Sample.world).1
  = Ok "@paper-conference{doe2020from, title = {From $a_1$ to $b_2$}, journal = {R\&D}}".
Proof.
  refine (eq_trans
            (exportBibTexBody_restores_plain_spans
               [parseSingle
                  (Sample.entity "From $a_1$ to $b_2$" "Jane Doe" "R&D")]
               Sample.world
               "@paper-conference{doe2020from, title = {From "
               [("$a_1$", " to "); ("$b_2$", "}, journal = {R&D}}")]
               _ _ _) _);
    by vm_compute.
Defined.

(** C2 fails on the code.  The title of the specification, with one span
    that starts with a letter, keeps its span while the ampersand, percent
    and hash signs of the venue are escaped, and so does a title with two
    such spans.  A title with display math has
    the two spans "$$", and each comes back as a single "$", because the
    span is used as the replacement text of [replace], where "$$" stands
    for one "$"; a span that starts with "$&" comes back as the
    placeholder. *)
Theorem exportBibTexBody_math_spans :
  (exportBibTexBody
     (Some [parseSingle
              (Sample.entity "A $O(n \log n)$ Algorithm" "Jane Doe"
                 "R&D 100% #1")]) Sample.world).1
  = Ok "@paper-conference{doe2020a, title = {A $O(n \log n)$ Algorithm}, journal = {R\&D 100\% \#1}}"
  /\ (exportBibTexBody
        (Some [parseSingle
                 (Sample.entity "From $a_1$ to $b_2$" "Jane Doe" "ICML")])
        Sample.world).1
     = Ok "@paper-conference{doe2020from, title = {From $a_1$ to $b_2$}, journal = {ICML}}"
  /\ Js.matchMathEnvs "On $$x^2$$ bounds" = ["$$"; "$$"]
  /\ (exportBibTexBody
        (Some [parseSingle
                 (Sample.entity "On $$x^2$$ bounds" "Jane Doe" "ICML")])
        Sample.world).1
     = Ok "@paper-conference{doe2020on, title = {On $x^2$ bounds}, journal = {ICML}}"
  /\ Js.search "$$"
       "@paper-conference{doe2020on, title = {On $x^2$ bounds}, journal = {ICML}}"
     = None
  /\ Js.matchMathEnvs "Cost $&$ Benefit" = ["$&$"]
  /\ (exportBibTexBody
        (Some [parseSingle
                 (Sample.entity "Cost $&$ Benefit" "Jane Doe" "ICML")])
        Sample.world).1
     = Ok "@paper-conference{doe2020cost, title = {Cost MATHENVDOLLAR{i}$ Benefit}, journal = {ICML}}".
Proof. by vm_compute. Qed.

(* ===================================================================== *)
(** * What a method leaves alone *)
(* ===================================================================== *)

Section Frames.
Context {B : Type} (f : World -> B).

Lemma preserves_ret {A} (a : A) : preserves f (ret a).
Proof. by intros w. Qed.

Lemma preserves_throw {A} (e : string) : preserves f (@throw A e).
Proof. by intros w. Qed.

Lemma preserves_lift {A} (r : Result A) : preserves f (lift r).
Proof. by intros w. Qed.

Lemma preserves_gets {A} (g : World -> A) : preserves f (gets g).
Proof. by intros w. Qed.

Lemma preserves_modify (g : World -> World) :
  (forall w, f (g w) = f w) -> preserves f (modify g).
Proof. intros Hg w. apply Hg. Qed.

Lemma preserves_bind {A C} (m : M A) (k : A -> M C) :
  preserves f m -> (forall a, preserves f (k a)) -> preserves f (bind m k).
Proof.
  intros Hm Hk w. unfold bind. specialize (Hm w).
  destruct (m w) as [[a|e] w1]; cbn in *; [|done].
  by rewrite Hk.
Qed.

Lemma preserves_try_catch {A} (body : M A) (handler : string -> M A) :
  preserves f body -> (forall e, preserves f (handler e)) ->
  preserves f (try_catch body handler).
Proof.
  intros Hm Hh w. unfold try_catch. specialize (Hm w).
  destruct (body w) as [[a|e] w1]; cbn in *; [done|].
  by rewrite Hh.
Qed.

Lemma preserves_mapM {A C} (g : A -> M C) (l : list A) :
  (forall a, a ∈ l -> preserves f (g a)) -> preserves f (mapM g l).
Proof.
  induction l as [|a l IH]; intros Hg; [by intros w|].
  cbn [mapM]. apply preserves_bind; [apply Hg; by left|].
  intros b. apply preserves_bind; [|intros bs; apply preserves_ret].
  apply IH. intros a' Ha'. apply Hg. by right.
Qed.

Lemma preserves_promise {A} (body : M A) :
  preserves f body -> preserves f (promise body).
Proof.
  intros Hm w. unfold promise. specialize (Hm w).
  by destruct (body w) as [r w1].
Qed.

End Frames.

(** Splits a goal [preserves f m] along the structure of [m]. *)
Ltac frame_step :=
  match goal with
  | |- preserves _ (ret _) => apply preserves_ret
  | |- preserves _ (throw _) => apply preserves_throw
  | |- preserves _ (lift _) => apply preserves_lift
  | |- preserves _ (gets _) => apply preserves_gets
  | |- preserves _ (modify _) =>
      apply preserves_modify; intros; first [reflexivity | by eauto]
  | |- preserves _ (bind _ _) => apply preserves_bind; [|intros]
  | |- preserves _ (try_catch _ _) => apply preserves_try_catch; [|intros]
  | |- preserves _ (promise _) => apply preserves_promise
  | |- preserves _ (if ?b then _ else _) => destruct b
  | |- preserves _ (match ?x with _ => _ end) => destruct x
  | |- preserves _ (let '(_, _) := ?x in _) => destruct x
  | H : preserves ?f ?m |- preserves ?f ?m => exact H
  end.
Ltac frame := repeat frame_step.

(* ===================================================================== *)
(** * Rewriting, drafts and the cite object *)
(* ===================================================================== *)

Lemma replacePublication_run (w : World) (source : nat) :
  exists w',
    replacePublication source w = (Ok source, w')
    /\ store w'
       = match store w !! source with
         | Some entity =>
             <[source := rewriteEntity (prefs w) entity]> (store w)
         | None => store w
         end
    /\ same_services w w'
    /\ (log w' = log w
        \/ exists e,
            log w'
            = log w
                ++ [failure_entry "Failed to abbreviate publication name." e]).
Proof.
  unfold replacePublication, rewriteEntity, rewrittenPublication,
    logService_error, deref, same_services.
  run_monad. destruct w as [st pf fl ls tp lg fm cb]. cbn.
  destruct (enableExportReplacement pf); cbn.
  2: { eexists. split; [reflexivity|]. cbn.
       destruct (st !! source) as [entity|] eqn:Hsrc; [|by intuition].
       rewrite with_publication_same, insert_id by done. by intuition. }
  destruct (exportReplacement pf) as [items|]; cbn.
  2: { eexists. split; [reflexivity|]. cbn.
       destruct (st !! source) as [entity|] eqn:Hsrc.
       - rewrite with_publication_same, insert_id by done.
         repeat split; eauto.
       - repeat split; eauto. }
  destruct (st !! source) as [entity|] eqn:Hsrc; cbn.
  2: { eexists. split; [reflexivity|]. cbn. repeat split; eauto. }
  rewrite Map_new_lookup.
  destruct (lastTarget items (PaperEntity.publication entity)); cbn.
  - eexists. split; [reflexivity|]. cbn. by intuition.
  - eexists. split; [reflexivity|]. cbn.
    rewrite with_publication_same, insert_id by done. by intuition.
Qed.

(** X2: [replacePublication] never throws: for every world and every
    reference, also a dangling one, and for every shape of the preferences,
    it returns the reference it was given. The store changes at most at that
    reference, the log grows by at most one entry, and nothing else changes. *)
Theorem replacePublication_never_throws (w : World) (source : nat) :
  exists w',
    replacePublication source w = (Ok source, w')
    /\ (forall r, r <> source -> store w' !! r = store w !! r)
    /\ (is_Some (store w' !! source) <-> is_Some (store w !! source))
    /\ same_services w w'
    /\ (log w' = log w \/ exists entry, log w' = log w ++ [entry]).
Proof.
  destruct (replacePublication_run w source)
    as (w' & Hrun & Hstore & Hsame & Hlog).
  exists w'. split; [done|]. rewrite Hstore.
  destruct (store w !! source) as [entity|] eqn:Hsrc.
  - split; [intros r Hr; by rewrite lookup_insert_ne|].
    split; [rewrite lookup_insert_eq; split; eauto|]. split; [done|].
    destruct Hlog as [?|[e ?]]; eauto.
  - split; [done|]. split; [by rewrite Hsrc|]. split; [done|].
    destruct Hlog as [?|[e ?]]; eauto.
Qed.

(** The drafts of [export]: fresh, pairwise distinct references that hold
    copies of the records, beside everything the store held before. *)
Lemma drafts_fresh (paperEntities : list PaperEntity.t) (w : World) :
  exists drafts w',
    mapM newPaperEntity paperEntities w = (Ok drafts, w')
    /\ NoDup drafts
    /\ Forall (fun r => store w !! r = None) drafts
    /\ Forall2 (fun r p => store w' !! r = Some p) drafts paperEntities
    /\ (forall r, is_Some (store w !! r) -> store w' !! r = store w !! r)
    /\ same_outside_store w w'.
Proof.
  revert w. induction paperEntities as [|p l IH]; intros w.
  { exists [], w. repeat split; by constructor. }
  set (r := fresh (dom (store w))).
  assert (Hr : store w !! r = None)
    by (apply not_elem_of_dom, is_fresh).
  destruct (IH (set_store (insert r p) w))
    as (drafts & w' & Hrun & Hnodup & Hnew & Hheld & Hkept & Hsame).
  cbn [store set_store] in *.
  assert (Hhead : store w' !! r = Some p).
  { rewrite Hkept; by rewrite lookup_insert_eq. }
  exists (r :: drafts), w'. split.
  { cbn [mapM]. unfold bind at 1. unfold newPaperEntity at 1. fold r.
    unfold bind at 1. by rewrite Hrun. }
  split.
  { constructor; [|done]. intros Hin.
    rewrite Forall_forall in Hnew. specialize (Hnew r Hin).
    by rewrite lookup_insert_eq in Hnew. }
  split.
  { constructor; [done|]. eapply Forall_impl; [exact Hnew|].
    intros r' Hr'. cbn in Hr'.
    destruct (decide (r = r')) as [<-|Hne];
      [by rewrite lookup_insert_eq in Hr'|by rewrite lookup_insert_ne in Hr']. }
  split; [by constructor|]. split.
  { intros r' Hr'. assert (r <> r') by (intros <-; rewrite Hr in Hr';
      by destruct Hr'). rewrite Hkept; rewrite lookup_insert_ne; done. }
  unfold same_outside_store in *. by destruct w.
Qed.

Lemma held_after_insert (refs : list nat) (entities : list PaperEntity.t)
  (st : gmap nat PaperEntity.t) (r : nat) (x : PaperEntity.t) :
  r ∉ refs ->
  Forall2 (fun r' p => st !! r' = Some p) refs entities ->
  Forall2 (fun r' p => <[r := x]> st !! r' = Some p) refs entities.
Proof.
  intros Hnotin Hheld. induction Hheld as [|r' p refs ps Hr' _ IH];
    [by constructor|].
  apply not_elem_of_cons in Hnotin as [Hne Hnotin].
  constructor; [by rewrite lookup_insert_ne|by apply IH].
Qed.

Lemma replacePublication_all (refs : list nat)
  (entities : list PaperEntity.t) (w : World) :
  NoDup refs ->
  Forall2 (fun r p => store w !! r = Some p) refs entities ->
  exists w',
    mapM replacePublication refs w = (Ok refs, w')
    /\ Forall2 (fun r p => store w' !! r = Some (rewriteEntity (prefs w) p))
         refs entities
    /\ (forall r, r ∉ refs -> store w' !! r = store w !! r)
    /\ same_services w w'.
Proof.
  intros Hnodup Hheld. revert w entities Hnodup Hheld.
  induction refs as [|r refs IH]; intros w entities Hnodup Hheld.
  { inversion Hheld; subst. exists w. repeat split; by constructor. }
  inversion Hheld as [|? p ? ps Hr Hrest]; subst.
  inversion Hnodup as [|? ? Hnotin Hnodup']; subst.
  destruct (replacePublication_run w r)
    as (w1 & Hrun & Hstore & Hsame1 & _).
  rewrite Hr in Hstore.
  assert (Hrest1 : Forall2 (fun r p => store w1 !! r = Some p) refs ps).
  { rewrite Hstore. by apply held_after_insert. }
  destruct (IH w1 ps Hnodup' Hrest1)
    as (w' & Hrun' & Hheld' & Hframe & Hsame').
  assert (Hprefs : prefs w1 = prefs w) by apply Hsame1.
  rewrite Hprefs in Hheld'.
  exists w'. split.
  { cbn [mapM]. unfold bind at 1. rewrite Hrun. unfold bind at 1.
    by rewrite Hrun'. }
  split.
  { constructor; [|done].
    by rewrite (Hframe r Hnotin), Hstore, lookup_insert_eq. }
  split.
  { intros r' Hr'. apply not_elem_of_cons in Hr' as [Hne Hr'].
    by rewrite (Hframe r' Hr'), Hstore, lookup_insert_ne. }
  unfold same_services in *. by intuition congruence.
Qed.

Lemma deref_all (refs : list nat) (entities : list PaperEntity.t)
  (w : World) :
  Forall2 (fun r p => store w !! r = Some p) refs entities ->
  mapM deref refs w = (Ok entities, w).
Proof.
  induction 1 as [|r p refs ps Hr _ IH]; [done|].
  cbn [mapM]. unfold bind at 1. unfold deref at 1. rewrite Hr.
  unfold bind at 1. by rewrite IH.
Qed.

Lemma predicateMulti_rewritten (p : Preferences)
  (entities : list PaperEntity.t) :
  Forall (fun e => is_Some (PaperEntity.codes e)) entities ->
  predicateMulti (map (rewriteEntity p) entities) = true.
Proof.
  induction 1 as [|e l He _ IH]; [done|].
  unfold predicateMulti in *. cbn [map forallb]. rewrite IH.
  unfold predicateSingle.
  change (PaperEntity.codes (rewriteEntity p e)) with (PaperEntity.codes e).
  by rewrite bool_decide_eq_true_2.
Qed.

Lemma toCite_rewritten_entities `{Collaborators} (refs : list nat)
  (entities : list PaperEntity.t) (w : World) :
  NoDup refs ->
  Forall2 (fun r p => store w !! r = Some p) refs entities ->
  Forall (fun p => is_Some (PaperEntity.codes p)) entities ->
  exists w',
    toCite (SourceEntities refs) w
    = (Ok (Some (map (fun p => parseSingle (rewriteEntity (prefs w) p))
                   entities)), w')
    /\ Forall2 (fun r p => store w' !! r = Some (rewriteEntity (prefs w) p))
         refs entities
    /\ (forall r, r ∉ refs -> store w' !! r = store w !! r)
    /\ same_services w w'.
Proof.
  intros Hnodup Hheld Hcodes.
  destruct (replacePublication_all refs entities w Hnodup Hheld)
    as (w' & Hrun & Hheld' & Hframe & Hsame).
  exists w'. split; [|done].
  unfold toCite, errorcatching, newCite. run_monad. rewrite Hrun.
  cbv beta iota.
  rewrite (deref_all refs (map (rewriteEntity (prefs w)) entities) w')
    by (by apply Forall2_fmap_r).
  cbv beta iota. rewrite predicateMulti_rewritten by done.
  unfold parseMulti. by rewrite map_map.
Qed.

(** X3: [toCite] on a list of distinct records whose [codes] are defined:
    every record is rewritten in place, and the cite object holds one
    citation per record, in the order of the list, each parsed from the
    rewritten record; the method returns normally and touches nothing but
    the store and the log. *)
Theorem toCite_entities `{Collaborators} (refs : list nat)
  (entities : list PaperEntity.t) (w : World) :
  NoDup refs ->
  Forall2 (fun r p => store w !! r = Some p) refs entities ->
  Forall (fun p => is_Some (PaperEntity.codes p)) entities ->
  exists w',
    toCite (SourceEntities refs) w
    = (Ok (Some (map (fun p => parseSingle (rewriteEntity (prefs w) p))
                   entities)), w')
    /\ Forall2 (fun r p => store w' !! r = Some (rewriteEntity (prefs w) p))
         refs entities
    /\ (forall r, r ∉ refs -> store w' !! r = store w !! r)
    /\ same_services w w'.
Proof. apply toCite_rewritten_entities. Qed.

Lemma toCite_entities_witness :
  let e1 := Sample.entity "A Title" "Jane Doe" "NeurIPS" in
  let e2 := Sample.entity "Another Title" "John Smith" "ICML" in
  let w := set_store (fun _ => {[ 3%nat := e1; 5%nat := e2 ]}) Sample.world in
  exists w',
    toCite (SourceEntities [3%nat; 5%nat]) w
    = (Ok (Some [parseSingle (rewriteEntity (prefs w) e1);
                 parseSingle (rewriteEntity (prefs w) e2)]), w')
    /\ CSL.container_title (parseSingle (rewriteEntity (prefs w) e1))
       = "Conference on Neural Information Processing Systems (NeurIPS)".
Proof.
  cbn zeta.
  destruct (toCite_entities [3%nat; 5%nat]
              [Sample.entity "A Title" "Jane Doe" "NeurIPS";
               Sample.entity "Another Title" "John Smith" "ICML"]
              (set_store (fun _ => {[ 3%nat :=
                    Sample.entity "A Title" "Jane Doe" "NeurIPS";
                  5%nat := Sample.entity "Another Title" "John Smith" "ICML" ]})
                 Sample.world))
    as (w' & Hrun & _).
  - repeat constructor; rewrite ?elem_of_cons, ?elem_of_nil; intuition lia.
  - repeat constructor; by vm_compute.
  - repeat constructor; by eexists.
  - exists w'. split; [exact Hrun|by vm_compute].
Defined.

Lemma citation_key_rewritten `{Collaborators} (p : Preferences)
  (entity : PaperEntity.t) :
  CSL.citation_key (parseSingle (rewriteEntity p entity))
  = CSL.citation_key (parseSingle entity).
Proof. reflexivity. Qed.

(** X4: [export] with the format BibTex-Key, for records whose [codes] are
    defined and whatever the preferences hold: it returns normally and
    writes to the clipboard the citation keys of the records, in their
    order, joined by a comma and a space; rewriting the publication does not
    change a key. *)
Theorem export_bibtex_key_writes_keys `{Collaborators}
  (paperEntities : list PaperEntity.t) (w : World) :
  Forall (fun p => is_Some (PaperEntity.codes p)) paperEntities ->
  exists w',
    export paperEntities "BibTex-Key" w = (Ok tt, w')
    /\ clipboard w'
       = Js.join ", "
           (map (fun p => CSL.citation_key (parseSingle p)) paperEntities)
           :: clipboard w.
Proof.
  intros Hcodes.
  destruct (drafts_fresh paperEntities w)
    as (drafts & w1 & Hdrafts & Hnodup & _ & Hheld & _ & Hsame1).
  destruct (toCite_rewritten_entities drafts paperEntities w1 Hnodup Hheld
              Hcodes)
    as (w2 & Hcite & _ & _ & Hsame2).
  unfold export, errorcatching, clipboard_writeText. run_monad.
  rewrite Hdrafts. cbv beta iota. cbn [String.eqb Ascii.eqb Bool.eqb].
  cbv beta iota. rewrite Hcite. cbv beta iota.
  unfold exportBibTexKey, errorcatching, cite_format. run_monad.
  eexists. split; [reflexivity|]. cbn [clipboard set_clipboard set_formatted].
  f_equal.
  - unfold format_bibtex_key. rewrite map_map. f_equal.
  - destruct Hsame1 as (_ & _ & _ & _ & _ & _ & Hc1).
    destruct Hsame2 as (_ & _ & _ & _ & _ & Hc2). congruence.
Qed.

Lemma export_bibtex_key_writes_keys_witness :
  exists w',
    export [Sample.entity "Balanced Meta-Softmax" "Jiawei Ren, Cunjun Yu"
              "NeurIPS";
            Sample.entity "Attention Is All You Need" "Ashish Vaswani"
              "NeurIPS"]
      "BibTex-Key" Sample.world
    = (Ok tt, w')
    /\ clipboard w' = ["ren2020balanced, vaswani2020attention"].
Proof.
  destruct (export_bibtex_key_writes_keys
              [Sample.entity "Balanced Meta-Softmax" "Jiawei Ren, Cunjun Yu"
                 "NeurIPS";
               Sample.entity "Attention Is All You Need" "Ashish Vaswani"
                 "NeurIPS"] Sample.world)
    as (w' & Hrun & Hclip).
  - repeat constructor; by eexists.
  - exists w'. split; [exact Hrun|]. rewrite Hclip. by vm_compute.
Defined.

(* ===================================================================== *)
(** * What the methods of the service leave alone *)
(* ===================================================================== *)

Section ServiceFrames.
Context `{Collaborators} {B : Type} (f : World -> B).
Hypothesis Hstore : forall g w, f (set_store g w) = f w.
Hypothesis Hlog : forall g w, f (set_log g w) = f w.
Hypothesis Hformatted : forall g w, f (set_formatted g w) = f w.
Hypothesis Htemplates : forall g w, f (set_templates g w) = f w.

Lemma deref_preserves (r : nat) : preserves f (deref r).
Proof. intros w. unfold deref. by destruct (store w !! r). Qed.

Lemma readFileSync_preserves (path : string) : preserves f (readFileSync path).
Proof. intros w. unfold readFileSync. by destruct (files w !! path). Qed.

Lemma readdirSync_preserves (path : string) : preserves f (readdirSync path).
Proof. intros w. unfold readdirSync. by destruct (listing w !! path). Qed.

Lemma newPaperEntity_preserves (p : PaperEntity.t) :
  preserves f (newPaperEntity p).
Proof. intros w. apply Hstore. Qed.

Lemma replacePublication_preserves (source : nat) :
  preserves f (replacePublication source).
Proof.
  unfold replacePublication, logService_error. frame.
  apply deref_preserves.
Qed.

Lemma newCite_preserves (input : Source) : preserves f (newCite input).
Proof.
  unfold newCite. frame; try apply deref_preserves.
  apply preserves_mapM. intros r _. apply deref_preserves.
Qed.

Lemma toCite_preserves (source : Source) : preserves f (toCite source).
Proof.
  unfold toCite, errorcatching, logService_error. frame;
    try apply newCite_preserves; try apply replacePublication_preserves.
  apply preserves_mapM. intros r _. apply replacePublication_preserves.
Qed.

Lemma cite_format_preserves (cite : option Cite) (call : FormatCall) :
  preserves f (cite_format cite call).
Proof. unfold cite_format. frame. Qed.

Lemma exportBibTexKey_preserves (cite : option Cite) :
  preserves f (exportBibTexKey cite).
Proof.
  unfold exportBibTexKey, errorcatching, logService_error. frame.
  apply cite_format_preserves.
Qed.

Lemma exportBibTexBody_preserves (cite : option Cite) :
  preserves f (exportBibTexBody cite).
Proof.
  unfold exportBibTexBody, errorcatching, logService_error. frame.
  apply cite_format_preserves.
Qed.

Lemma exportPlainText_preserves (cite : option Cite) :
  preserves f (exportPlainText cite).
Proof.
  unfold exportPlainText, existsSync, logService_error. frame;
    try apply cite_format_preserves; try apply readFileSync_preserves.
Qed.

Lemma parsePromise_preserves (filePath : string) :
  preserves f (parsePromise filePath).
Proof. unfold parsePromise. frame. apply readFileSync_preserves. Qed.

Lemma rendering_preserves (drafts : list nat) (format : string) :
  preserves f
    (if String.eqb format "BibTex" then
       let* cite := toCite (SourceEntities drafts) in exportBibTexBody cite
     else if String.eqb format "BibTex-Key" then
       let* cite := toCite (SourceEntities drafts) in exportBibTexKey cite
     else if String.eqb format "PlainText" then
       let* cite := toCite (SourceEntities drafts) in exportPlainText cite
     else ret EmptyString).
Proof.
  frame; try apply toCite_preserves; try apply exportBibTexBody_preserves;
    try apply exportBibTexKey_preserves; try apply exportPlainText_preserves.
Qed.

End ServiceFrames.

(* ===================================================================== *)
(** * The export facade, for every input *)
(* ===================================================================== *)

Lemma export_unfold `{Collaborators} (paperEntities : list PaperEntity.t)
  (format : string) :
  export paperEntities format
  = errorcatching "Failed to export paper entities." true "ReferenceService"
      tt
      (let* drafts := mapM newPaperEntity paperEntities in
       export_drafts drafts format).
Proof. reflexivity. Qed.

Lemma replacePublication_keeps_others (r source : nat) :
  r <> source ->
  preserves (fun w => store w !! r) (replacePublication source).
Proof.
  intros Hne w. destruct (replacePublication_run w source)
    as (w' & Hrun & Hstore & _).
  rewrite Hrun. cbn [snd]. rewrite Hstore.
  destruct (store w !! source); [by rewrite lookup_insert_ne|done].
Qed.

Lemma toCite_keeps_others `{Collaborators} (r : nat) (refs : list nat) :
  r ∉ refs ->
  preserves (fun w => store w !! r) (toCite (SourceEntities refs)).
Proof.
  intros Hnotin. unfold toCite, errorcatching, logService_error. frame.
  - apply preserves_mapM. intros source Hin.
    apply replacePublication_keeps_others. by intros ->.
  - by apply newCite_preserves.
Qed.

Lemma export_drafts_keeps_others `{Collaborators} (r : nat)
  (drafts : list nat) (format : string) :
  r ∉ drafts ->
  preserves (fun w => store w !! r) (export_drafts drafts format).
Proof.
  intros Hnotin. unfold export_drafts, clipboard_writeText. frame;
    try (by apply toCite_keeps_others);
    first [apply exportBibTexBody_preserves
          |apply exportBibTexKey_preserves
          |apply exportPlainText_preserves]; done.
Qed.

(** X6: [export] never changes a record that the store held before the call,
    whatever the records, the format and the preferences: it rewrites only
    the drafts it makes itself. *)
Theorem export_keeps_existing_records `{Collaborators}
  (paperEntities : list PaperEntity.t) (format : string) (w : World)
  (r : nat) :
  is_Some (store w !! r) ->
  store (export paperEntities format w).2 !! r = store w !! r.
Proof.
  intros Hheld.
  destruct (drafts_fresh paperEntities w)
    as (drafts & w1 & Hdrafts & _ & Hnew & _ & Hkept & _).
  assert (Hnotin : r ∉ drafts).
  { intros Hin. rewrite Forall_forall in Hnew.
    rewrite (Hnew r Hin) in Hheld. by destruct Hheld. }
  rewrite export_unfold. unfold errorcatching, try_catch. unfold bind at 1.
  rewrite Hdrafts.
  pose proof (export_drafts_keeps_others r drafts format Hnotin w1) as Hrest.
  cbn beta in Hrest.
  destruct (export_drafts drafts format w1) as [[[]|e] w2]; cbn in *;
    by rewrite Hrest, Hkept.
Qed.

Lemma export_keeps_existing_records_witness :
  let kept := Sample.entity "A Title" "Jane Doe" "NeurIPS" in
  let w := set_store (insert 0%nat kept) Sample.world in
  store (export [kept] "BibTex" w).2 !! 0%nat = Some kept.
Proof.
  cbn zeta.
  rewrite (export_keeps_existing_records
             [Sample.entity "A Title" "Jane Doe" "NeurIPS"] "BibTex"
             (set_store (insert 0%nat
                (Sample.entity "A Title" "Jane Doe" "NeurIPS")) Sample.world)
             0%nat); [by vm_compute|].
  vm_compute. by eexists.
Defined.

Section ExportFrames.
Context `{Collaborators} {B : Type} (f : World -> B).
Hypothesis Hstore : forall g w, f (set_store g w) = f w.
Hypothesis Hlog : forall g w, f (set_log g w) = f w.
Hypothesis Hformatted : forall g w, f (set_formatted g w) = f w.
Hypothesis Htemplates : forall g w, f (set_templates g w) = f w.
Hypothesis Hclipboard : forall g w, f (set_clipboard g w) = f w.

Lemma export_preserves (paperEntities : list PaperEntity.t)
  (format : string) :
  preserves f (export paperEntities format).
Proof.
  rewrite export_unfold.
  unfold errorcatching, logService_error, export_drafts, clipboard_writeText.
  frame;
    first [ apply preserves_mapM; intros p _; by apply newPaperEntity_preserves
          | by apply toCite_preserves
          | by apply exportBibTexBody_preserves
          | by apply exportBibTexKey_preserves
          | by apply exportPlainText_preserves ].
Qed.

End ExportFrames.

Lemma errorcatching_returns {A} (message : string) (notify : bool)
  (tag : string) (fallback : A) (body : M A) (w : World) :
  (exists a w', body w = (Ok a, w')
                /\ errorcatching message notify tag fallback body w
                   = (Ok a, w'))
  \/ (exists e w', body w = (Throw e, w')
                   /\ errorcatching message notify tag fallback body w
                      = (Ok fallback,
                         set_log
                           (fun l => l ++ [Build_LogEntry message e notify tag])
                           w')).
Proof.
  unfold errorcatching, try_catch, logService_error. run_monad.
  destruct (body w) as [[a|e] w']; [left|right]; eauto.
Qed.

Lemma export_drafts_writes_once `{Collaborators} (drafts : list nat)
  (format : string) (w : World) :
  (exists text w',
      export_drafts drafts format w = (Ok tt, w')
      /\ clipboard w' = text :: clipboard w)
  \/ (exists e w',
      export_drafts drafts format w = (Throw e, w')
      /\ clipboard w' = clipboard w).
Proof.
  pose proof (rendering_preserves clipboard
                (fun _ _ => eq_refl) (fun _ _ => eq_refl)
                (fun _ _ => eq_refl) (fun _ _ => eq_refl)
                drafts format w) as Hkeep.
  unfold preserves in Hkeep. cbv beta in Hkeep.
  unfold export_drafts, clipboard_writeText.
  set (rendering := if String.eqb format "BibTex" then _ else _) in *.
  unfold bind, modify. destruct (rendering w) as [[text|e] w1]; cbn in Hkeep.
  - left. exists text. eexists. split; [reflexivity|]. cbn. by rewrite Hkeep.
  - right. exists e, w1. split; [reflexivity|exact Hkeep].
Qed.

(** X7: [export] never throws, whatever the records, the format, the
    preferences and the collaborators do. It never changes the preferences
    or the files; it writes to the clipboard once, or not at all, and in
    that case the last entry of the log reports the failure. *)
Theorem export_never_throws `{Collaborators}
  (paperEntities : list PaperEntity.t) (format : string) (w : World) :
  exists w',
    export paperEntities format w = (Ok tt, w')
    /\ prefs w' = prefs w /\ files w' = files w /\ listing w' = listing w
    /\ ((exists text, clipboard w' = text :: clipboard w)
        \/ (clipboard w' = clipboard w
            /\ exists entries e,
                log w'
                = entries
                    ++ [failure_entry "Failed to export paper entities." e])).
Proof.
  pose proof (export_preserves prefs (fun _ _ => eq_refl)
                (fun _ _ => eq_refl) (fun _ _ => eq_refl)
                (fun _ _ => eq_refl) (fun _ _ => eq_refl)
                paperEntities format w) as Hprefs.
  pose proof (export_preserves files (fun _ _ => eq_refl)
                (fun _ _ => eq_refl) (fun _ _ => eq_refl)
                (fun _ _ => eq_refl) (fun _ _ => eq_refl)
                paperEntities format w) as Hfiles.
  pose proof (export_preserves listing (fun _ _ => eq_refl)
                (fun _ _ => eq_refl) (fun _ _ => eq_refl)
                (fun _ _ => eq_refl) (fun _ _ => eq_refl)
                paperEntities format w) as Hlisting.
  assert (exists w',
    export paperEntities format w = (Ok tt, w')
    /\ ((exists text, clipboard w' = text :: clipboard w)
        \/ (clipboard w' = clipboard w
            /\ exists entries e,
                log w'
                = entries
                    ++ [failure_entry "Failed to export paper entities." e])))
    as (w' & Hrun & Hwritten).
  { destruct (drafts_fresh paperEntities w)
      as (drafts & w1 & Hdrafts & _ & _ & _ & _ & Hsame).
    assert (Hclip : clipboard w1 = clipboard w) by apply Hsame.
    rewrite export_unfold. unfold errorcatching, try_catch, logService_error.
    unfold bind at 1. rewrite Hdrafts.
    destruct (export_drafts_writes_once drafts format w1)
      as [(text & w2 & -> & Hw)|(e & w2 & -> & Hw)]; run_monad;
      eexists; (split; [reflexivity|]).
    - left. exists text. by rewrite Hw, Hclip.
    - right. cbn. split; [by rewrite Hw|]. by eexists _, e. }
  rewrite Hrun in Hprefs, Hfiles, Hlisting. by exists w'.
Qed.

(* ===================================================================== *)
(** * The facade always yields a cite object or null *)
(* ===================================================================== *)

Lemma toCite_returns `{Collaborators} (source : Source) (w : World) :
  exists cite w',
    toCite source w = (Ok cite, w') /\ clipboard w' = clipboard w.
Proof.
  pose proof (toCite_preserves clipboard (fun _ _ => eq_refl)
                (fun _ _ => eq_refl) source w) as Hkeep.
  unfold toCite in *.
  match goal with
  | |- context [errorcatching ?m ?n ?t ?fb ?body w] =>
      destruct (errorcatching_returns m n t fb body w)
        as [(a & w' & _ & Hrun)|(e & w' & _ & Hrun)]
  end; rewrite Hrun in *; eauto.
Qed.

(* ===================================================================== *)
(** * Style templates: built-in, first use, later uses *)
(* ===================================================================== *)

Lemma exportPlainText_builtin_run `{Collaborators} (cite : option Cite)
  (w : World) :
  selectedCSLStyle (prefs w) ∈ builtinKeys ->
  exportPlainText cite w
  = cite_format cite (FormatBibliography (selectedCSLStyle (prefs w))) w.
Proof.
  intros Hbuiltin. unfold exportPlainText. run_monad.
  by rewrite (bool_decide_eq_true_2 _ Hbuiltin).
Qed.

Lemma exportPlainText_registered_run `{Collaborators} (cite : option Cite)
  (w : World) (template content : string) :
  let csl := selectedCSLStyle (prefs w) in
  csl ∉ builtinKeys ->
  templates w !! csl = Some template ->
  files w !! path_join (importedCSLStylesPath (prefs w)) (csl +:+ ".csl")
    = Some content ->
  exportPlainText cite w = cite_format cite (FormatBibliography csl) w.
Proof.
  cbn zeta. intros Hcustom Hregistered Hfile.
  unfold exportPlainText, existsSync. run_monad.
  rewrite (bool_decide_eq_false_2 _ Hcustom), Hfile.
  rewrite (bool_decide_eq_true_2 (is_Some (Some _))) by done.
  cbv beta iota. rewrite Hregistered.
  by rewrite (bool_decide_eq_true_2 (is_Some (Some _))) by done.
Qed.

Lemma exportPlainText_first_use_run `{Collaborators} (cite : option Cite)
  (w : World) (content : string) :
  let csl := selectedCSLStyle (prefs w) in
  csl ∉ builtinKeys ->
  templates w !! csl = None ->
  files w !! path_join (importedCSLStylesPath (prefs w)) (csl +:+ ".csl")
    = Some content ->
  exportPlainText cite w
  = cite_format cite (FormatBibliography csl)
      (set_templates (insert csl content) w).
Proof.
  cbn zeta. intros Hcustom Hfresh Hfile.
  unfold exportPlainText, existsSync, readFileSync. run_monad.
  rewrite (bool_decide_eq_false_2 _ Hcustom), Hfile.
  rewrite (bool_decide_eq_true_2 (is_Some (Some _))) by done.
  cbv beta iota. rewrite Hfresh.
  rewrite (bool_decide_eq_false_2 (is_Some None)) by (by intros [? ?]).
  cbv beta iota. by rewrite Hfile.
Qed.

(** The result of [cite.format] for a bibliography depends on the world
    through the template registry alone. *)
Lemma cite_format_bibliography_result `{Collaborators} (cite : option Cite)
  (template : string) (w : World) :
  (cite_format cite (FormatBibliography template) w).1
  = match cite with
    | Some data => format_bibliography (templates w) template data
    | None => Throw (null_read "format")
    end
  /\ templates (cite_format cite (FormatBibliography template) w).2
     = templates w
  /\ log (cite_format cite (FormatBibliography template) w).2 = log w
  /\ prefs (cite_format cite (FormatBibliography template) w).2 = prefs w.
Proof.
  unfold cite_format. destruct cite as [data|]; [|done]. run_monad.
  cbn [templates set_formatted]. by destruct (format_bibliography _ _ data).
Qed.

(** X15: with a built-in style selected, [exportPlainText] does not look at
    the files: its result is the same whatever files exist, and it leaves
    the template registry and the log as they were. *)
Theorem exportPlainText_builtin_ignores_files `{Collaborators}
  (cite : option Cite) (w : World) (disk : gmap string string) :
  selectedCSLStyle (prefs w) ∈ builtinKeys ->
  (exportPlainText cite (set_files (fun _ => disk) w)).1
    = (exportPlainText cite w).1
  /\ templates (exportPlainText cite w).2 = templates w
  /\ log (exportPlainText cite w).2 = log w.
Proof.
  intros Hbuiltin.
  rewrite (exportPlainText_builtin_run cite (set_files _ w)) by done.
  rewrite (exportPlainText_builtin_run cite w) by done.
  cbn [prefs set_files].
  destruct (cite_format_bibliography_result cite
              (selectedCSLStyle (prefs w)) w) as (-> & -> & -> & _).
  by destruct (cite_format_bibliography_result cite
                 (selectedCSLStyle (prefs w))
                 (set_files (fun _ => disk) w)) as (-> & _).
Qed.

Lemma exportPlainText_builtin_ignores_files_witness :
  let cite := Some [parseSingle (Sample.entity "A Title" "Jane Doe" "ICML")] in
  (exportPlainText cite
     (set_files (fun _ => {[ "styles/apa.csl" := "other" ]}) Sample.world)).1
  = (exportPlainText cite Sample.world).1.
Proof.
  cbn zeta.
  destruct (exportPlainText_builtin_ignores_files
              (Some [parseSingle (Sample.entity "A Title" "Jane Doe" "ICML")])
              Sample.world {[ "styles/apa.csl" := "other" ]})
    as [Hresult _].
  - cbn. unfold builtinKeys. listed.
  - exact Hresult.
Defined.

(** X16: once a custom style is in the template registry, [exportPlainText]
    does not read its file again: as long as the file exists, the result
    does not depend on what the file holds now, and the registry stays as it
    is. *)
Theorem exportPlainText_registered_style_ignores_file `{Collaborators}
  (cite : option Cite) (w : World) (template content content' : string) :
  let csl := selectedCSLStyle (prefs w) in
  let path := path_join (importedCSLStylesPath (prefs w)) (csl +:+ ".csl") in
  csl ∉ builtinKeys ->
  templates w !! csl = Some template ->
  files w !! path = Some content ->
  (exportPlainText cite (set_files (insert path content') w)).1
    = (exportPlainText cite w).1
  /\ templates (exportPlainText cite w).2 = templates w.
Proof.
  cbn zeta. intros Hcustom Hregistered Hfile.
  rewrite (exportPlainText_registered_run cite w template content) by done.
  rewrite (exportPlainText_registered_run cite (set_files _ w) template
             content')
    by (done || apply lookup_insert_eq).
  cbn [prefs set_files].
  destruct (cite_format_bibliography_result cite
              (selectedCSLStyle (prefs w)) w) as (-> & -> & _).
  by destruct (cite_format_bibliography_result cite
                 (selectedCSLStyle (prefs w))
                 (set_files
                    (insert
                       (path_join (importedCSLStylesPath (prefs w))
                          (selectedCSLStyle (prefs w) +:+ ".csl")) content')
                    w)) as (-> & _).
Qed.

Lemma exportPlainText_registered_style_ignores_file_witness :
  let cite := Some [parseSingle (Sample.entity "A Title" "Jane Doe" "ICML")] in
  let w :=
    set_templates (insert "ieee" "first version")
      (set_files (insert "styles/ieee.csl" "first version")
         (select_style "ieee" Sample.world)) in
  (exportPlainText cite
     (set_files (insert "styles/ieee.csl" "second version") w)).1
  = (exportPlainText cite w).1.
Proof.
  cbn zeta.
  destruct (exportPlainText_registered_style_ignores_file
              (Some [parseSingle (Sample.entity "A Title" "Jane Doe" "ICML")])
              (set_templates (insert "ieee" "first version")
                 (set_files (insert "styles/ieee.csl" "first version")
                    (select_style "ieee" Sample.world)))
              "first version" "first version" "second version")
    as [Hresult _].
  - cbn. unfold builtinKeys. unlisted.
  - by vm_compute.
  - by vm_compute.
  - exact Hresult.
Defined.

(** X17: the first [exportPlainText] with a custom style whose file exists
    puts the content of the file into the registry under the style key, also
    when the formatting itself fails; a later call formats with that
    content, even if the file has changed in between. *)
Theorem exportPlainText_loads_template_once `{Collaborators}
  (cite : option Cite) (data : Cite) (w : World)
  (content content' : string) :
  let csl := selectedCSLStyle (prefs w) in
  let path := path_join (importedCSLStylesPath (prefs w)) (csl +:+ ".csl") in
  let w1 := (exportPlainText cite w).2 in
  csl ∉ builtinKeys ->
  templates w !! csl = None ->
  files w !! path = Some content ->
  templates w1 = <[csl := content]> (templates w)
  /\ (exportPlainText (Some data) (set_files (insert path content') w1)).1
     = format_bibliography (<[csl := content]> (templates w)) csl data.
Proof.
  cbn zeta. intros Hcustom Hfresh Hfile.
  rewrite (exportPlainText_first_use_run cite w content) by done.
  destruct (cite_format_bibliography_result cite
              (selectedCSLStyle (prefs w))
              (set_templates
                 (insert (selectedCSLStyle (prefs w)) content) w))
    as (_ & Htemplates & _ & Hprefs).
  cbn [templates set_templates prefs] in Htemplates, Hprefs.
  set (w1 := (cite_format cite _ _).2) in *.
  split; [done|].
  rewrite (exportPlainText_registered_run (Some data) (set_files _ w1)
             content content');
    cbn [prefs set_files files templates]; rewrite ?Hprefs, ?Htemplates;
    [|done|apply lookup_insert_eq|apply lookup_insert_eq].
  destruct (cite_format_bibliography_result (Some data)
              (selectedCSLStyle (prefs w))
              (set_files
                 (insert
                    (path_join (importedCSLStylesPath (prefs w))
                       (selectedCSLStyle (prefs w) +:+ ".csl")) content')
                 w1)) as (-> & _).
  cbn [templates set_files]. by rewrite Htemplates.
Qed.

Lemma exportPlainText_loads_template_once_witness :
  let data := [parseSingle (Sample.entity "A Title" "Jane Doe" "ICML")] in
  let w :=
    set_files (insert "styles/ieee.csl" "first version")
      (select_style "ieee" Sample.world) in
  let w1 := (exportPlainText (Some data) w).2 in
  templates w1 = {[ "ieee" := "first version" ]}
  /\ (exportPlainText (Some data)
        (set_files (insert "styles/ieee.csl" "second version") w1)).1
     = Sample.format_bibliography {[ "ieee" := "first version" ]} "ieee" data.
Proof.
  cbn zeta.
  destruct (exportPlainText_loads_template_once
              (Some [parseSingle (Sample.entity "A Title" "Jane Doe" "ICML")])
              [parseSingle (Sample.entity "A Title" "Jane Doe" "ICML")]
              (set_files (insert "styles/ieee.csl" "first version")
                 (select_style "ieee" Sample.world))
              "first version" "second version")
    as [Hregistry Hresult].
  - cbn. unfold builtinKeys. unlisted.
  - by vm_compute.
  - by vm_compute.
  - split; [rewrite Hregistry; by vm_compute|exact Hresult].
Defined.

(* ===================================================================== *)
(** * The style listing, for every directory *)
(* ===================================================================== *)

(** The promises of the scan settle without changing the world. *)
Lemma promises_settled `{Collaborators} (paths : list string) (w : World) :
  mapM (fun path => promise (parsePromise path)) paths w
  = (Ok (map (fun path => (parsePromise path w).1) paths), w).
Proof.
  induction paths as [|path paths IH]; [done|].
  cbn [mapM map]. unfold bind at 1. unfold promise at 1.
  pose proof (parsePromise_preserves (fun w => w) path w) as Hkeep.
  destruct (parsePromise path w) as [r w1]. cbn in Hkeep. subst w1.
  unfold bind at 1. by rewrite IH.
Qed.

Lemma Promise_all_rejected {A} (promises : list (Result A)) (e : string) :
  Throw e ∈ promises -> exists e', Promise_all promises = Throw e'.
Proof.
  induction promises as [|[a|e0] rest IH]; intros Hin.
  - by apply elem_of_nil in Hin.
  - apply elem_of_cons in Hin as [?|Hin]; [done|].
    destruct (IH Hin) as [e' He']. exists e'. cbn. by rewrite He'.
  - by exists e0.
Qed.

(** X19: [loadCSLStyles] never throws, and for every world there are two
    outcomes only: a listing that starts with the three built-in styles,
    with the world untouched, or the empty listing, with the failure
    appended to the log and nothing else changed. *)
Theorem loadCSLStyles_builtins_or_nothing `{Collaborators} (w : World) :
  (exists imported, loadCSLStyles w = (Ok (CSLStyles ++ imported), w))
  \/ (exists e,
        loadCSLStyles w
        = (Ok [],
           set_log
             (fun l => l ++ [failure_entry "Failed to load CSL styles." e])
             w)).
Proof.
  unfold loadCSLStyles.
  match goal with
  | |- context [errorcatching ?m ?n ?t ?fb ?body w] =>
      assert (Hkeep : (body w).2 = w);
      [|destruct (errorcatching_returns m n t fb body w)
          as [(a & w' & Hbody & Hrun)|(e & w' & Hbody & Hrun)];
        rewrite Hbody in Hkeep; cbn in Hkeep; subst w'; rewrite Hrun]
  end.
  { apply (preserves_bind (fun w => w)); [apply preserves_gets|].
    intros dir. destruct (String.eqb dir EmptyString);
      [apply preserves_ret|].
    apply preserves_bind; [apply readdirSync_preserves|]. intros names.
    apply preserves_bind.
    { apply preserves_mapM. intros file _.
      apply preserves_promise, parsePromise_preserves. }
    intros promises. frame. }
  - left. revert Hbody. unfold readdirSync. run_monad.
    destruct (String.eqb _ EmptyString).
    { intros [= <-]. exists []. by rewrite app_nil_r. }
    destruct (listing w !! _); [|done]. cbv beta iota.
    rewrite (promises_settled (map _ _)) ||
      (match goal with
       | |- context [mapM ?g ?l w] => destruct (mapM g l w) as [[ps|?] ?]
       end).
    all: cbv beta iota; try done.
    all: match goal with
         | |- context [Promise_all ?l] => destruct (Promise_all l)
         end; intros [= <-]; eauto.
  - right. by exists e.
Qed.

Lemma mapM_map {A B C} (g : B -> M C) (h : A -> B) (l : list A)
  (w : World) :
  mapM (fun a => g (h a)) l w = mapM g (map h l) w.
Proof.
  revert w. induction l as [|a l IH]; intros w; [done|].
  cbn [mapM map]. unfold bind at 1 3.
  destruct (g (h a) w) as [[r|e] w1]; [|done].
  unfold bind. by rewrite IH.
Qed.

Lemma parsePromise_unreadable `{Collaborators} (w : World)
  (filePath : string) :
  files w !! filePath = None
  \/ (exists content e,
        files w !! filePath = Some content /\ xml_parse content = Throw e) ->
  exists e, (parsePromise filePath w).1 = Throw e.
Proof.
  unfold parsePromise, readFileSync. run_monad.
  intros [-> | (content & e & -> & Hxml)]; [by eexists|].
  cbv beta iota. rewrite Hxml. by eexists.
Qed.

(** X20: one style file that cannot be read, or that the XML parser rejects,
    empties the whole listing: [loadCSLStyles] then returns no style at all,
    not even the built-in ones, and logs the failure. *)
Theorem loadCSLStyles_unreadable_file `{Collaborators} (w : World)
  (names : list string) (file : string) :
  let dir := importedCSLStylesPath (prefs w) in
  dir <> EmptyString ->
  listing w !! dir = Some names ->
  file ∈ names ->
  Js.endsWith ".csl" file = true ->
  files w !! path_join dir file = None
  \/ (exists content e,
        files w !! path_join dir file = Some content
        /\ xml_parse content = Throw e) ->
  exists e,
    loadCSLStyles w
    = (Ok [],
       set_log (fun l => l ++ [failure_entry "Failed to load CSL styles." e])
         w).
Proof.
  cbn zeta. intros Hdir Hlist Hin Hcsl Hbad.
  destruct (parsePromise_unreadable w _ Hbad) as [e0 He0].
  unfold loadCSLStyles, errorcatching, readdirSync, logService_error.
  apply String.eqb_neq in Hdir. run_monad. rewrite Hdir, Hlist.
  cbv beta iota.
  set (dir := importedCSLStylesPath (prefs w)) in *.
  set (styleFiles := filter (fun f => Js.endsWith ".csl" f = true) names).
  pose proof (promises_settled (map (path_join dir) styleFiles) w) as Hrun.
  rewrite (mapM_map (fun path => promise (parsePromise path))
             (path_join dir)), Hrun.
  cbv beta iota.
  destruct (Promise_all_rejected
              (map (fun path => (parsePromise path w).1)
                 (map (path_join dir) styleFiles)) e0) as [e' He'].
  { rewrite <- He0. apply list_elem_of_fmap. eexists. split; [reflexivity|].
    apply list_elem_of_fmap. exists file. split; [done|].
    by apply list_elem_of_filter. }
  rewrite He'. by exists e'.
Qed.

Lemma loadCSLStyles_unreadable_file_witness :
  let w :=
    {| store := ∅;
       prefs := Sample.preferences;
       files := {[ "styles/acm.csl" := Sample.titled_style ]};
       listing := {[ "styles" := ["acm.csl"; "gone.csl"] ]};
       templates := ∅;
       log := [];
       formatted := [];
       clipboard := [] |} in
  exists e,
    loadCSLStyles w
    = (Ok [],
       set_log (fun l => l ++ [failure_entry "Failed to load CSL styles." e])
         w).
Proof.
  cbn zeta.
  refine (loadCSLStyles_unreadable_file _ ["acm.csl"; "gone.csl"] "gone.csl"
            _ _ _ _ _).
  - done.
  - by vm_compute.
  - listed.
  - reflexivity.
  - left. by vm_compute.
Defined.

(* ===================================================================== *)
(** * Counting authors *)
(* ===================================================================== *)

Lemma split_length (sep : ascii) (s : string) :
  List.length (Js.split sep s) = S (count_char sep s).
Proof.
  induction s as [|c s IH]; [done|]. cbn [Js.split count_char].
  destruct (Ascii.eqb c sep); [cbn; by rewrite IH|].
  destruct (Js.split sep s); cbn in *; lia.
Qed.

(** X1: the parser yields one name more than the author string has
    delimiters, the delimiter being ";" when the string has one and ","
    otherwise: the result is never empty, and a delimiter at the end adds a
    name. *)
Theorem parseAuthors_length (authors : string) :
  List.length (parseAuthors authors)
  = S (count_char (if Js.includes ";" authors then ";"%char else ","%char)
         authors).
Proof.
  unfold parseAuthors. rewrite length_map.
  destruct (Js.includes ";" authors); apply split_length.
Qed.

(* ===================================================================== *)
(** * The escape pass *)
(* ===================================================================== *)

(** X13: [escapeLaTexString] works character by character: it puts a
    backslash before every ampersand, percent and hash sign and keeps every
    other character, so the escape of a concatenation is the concatenation
    of the escapes. *)
Theorem escapeLaTexString_charwise (s t : string) :
  escapeLaTexString s = escape_chars s
  /\ escapeLaTexString (s +:+ t)
     = escapeLaTexString s +:+ escapeLaTexString t.
Proof.
  split; [apply escapeLaTexString_chars|].
  rewrite !escapeLaTexString_chars. apply escape_chars_app.
Qed.

Lemma length_append (s t : string) :
  String.length (s +:+ t) = (String.length s + String.length t)%nat.
Proof.
  induction s as [|c s IH]; [done|]. rewrite append_cons. cbn. by rewrite IH.
Qed.

Lemma count_char_append (c : ascii) (s t : string) :
  count_char c (s +:+ t) = (count_char c s + count_char c t)%nat.
Proof.
  induction s as [|d s IH]; [done|]. rewrite append_cons. cbn [count_char].
  rewrite IH. lia.
Qed.

Lemma escape_chars_measure (s : string) :
  String.length (escape_chars s) = (String.length s + specials s)%nat
  /\ specials (escape_chars s) = specials s.
Proof.
  unfold specials. induction s as [|c s [IHl IHs]]; [done|].
  cbn [escape_chars]. rewrite length_append, !count_char_append, IHl.
  unfold escape_char.
  destruct (Ascii.eqb_spec c "&") as [->|Hamp]; [cbn; lia|].
  destruct (Ascii.eqb_spec c "%") as [->|Hpct]; [cbn; lia|].
  destruct (Ascii.eqb_spec c "#") as [->|Hhash]; [cbn; lia|].
  apply Ascii.eqb_neq in Hamp, Hpct, Hhash.
  cbn [orb String.length count_char]. rewrite Hamp, Hpct, Hhash. lia.
Qed.

(** X14: the escape pass makes the text longer by exactly the number of its
    ampersand, percent and hash signs and keeps that number, so a second
    pass adds as many backslashes again; the text comes back unchanged
    exactly when it has none of the three signs. *)
Theorem escapeLaTexString_length (s : string) :
  String.length (escapeLaTexString s) = (String.length s + specials s)%nat
  /\ String.length (escapeLaTexString (escapeLaTexString s))
     = (String.length s + 2 * specials s)%nat
  /\ (escapeLaTexString s = s <-> specials s = 0%nat).
Proof.
  rewrite !escapeLaTexString_chars.
  destruct (escape_chars_measure s) as [Hlen Hsame].
  destruct (escape_chars_measure (escape_chars s)) as [Hlen2 _].
  split; [done|]. split; [lia|]. split.
  - intros Hfixed. rewrite Hfixed in Hlen. lia.
  - unfold specials. clear. induction s as [|c s IH]; [done|].
    cbn [count_char escape_chars]. unfold escape_char.
    destruct (Ascii.eqb c "&"), (Ascii.eqb c "%"), (Ascii.eqb c "#");
      cbn [orb]; try lia.
    intros Hnone. rewrite append_cons, append_nil_l, IH; [done|lia].
Qed.

(* ===================================================================== *)
(** * Math spans and titles without them *)
(* ===================================================================== *)

Lemma includes_append (c : ascii) (s t : string) :
  Js.includes c (s +:+ t) = Js.includes c s || Js.includes c t.
Proof.
  induction s as [|d s IH]; [done|]. rewrite append_cons. cbn [Js.includes].
  by rewrite IH, orb_assoc.
Qed.

Lemma has_char_append (test : ascii -> bool) (s t : string) :
  has_char test (s +:+ t) = has_char test s || has_char test t.
Proof.
  induction s as [|d s IH]; [done|]. rewrite append_cons. cbn [has_char].
  by rewrite IH, orb_assoc.
Qed.

Lemma matchMathEnvs_go_spans (open : option string) (s : string) :
  match open with
  | Some buf =>
      Js.includes "$" buf = false
      /\ has_char Js.is_line_terminator buf = false
  | None => True
  end ->
  Forall math_span (Js.matchMathEnvs_go open s).
Proof.
  revert open. induction s as [|c s IH]; intros open Hopen; [constructor|].
  cbn [Js.matchMathEnvs_go]. destruct open as [buf|].
  - destruct Hopen as [Hdollar Hline].
    destruct (Ascii.eqb c "$") eqn:Hc.
    + constructor; [by exists buf|by apply IH].
    + destruct (Js.is_line_terminator c) eqn:Hterm; [by apply IH|].
      apply IH. rewrite includes_append, has_char_append, Hdollar, Hline.
      cbn. by rewrite Hc, Hterm.
  - destruct (Ascii.eqb c "$"); by apply IH.
Qed.

(** X10: every span that [exportBibTexBody] saves from a title starts with
    "$", ends with "$" and has neither a "$" nor a line terminator in
    between. *)
Theorem matchMathEnvs_spans (title : string) :
  Forall math_span (Js.matchMathEnvs title).
Proof. by apply matchMathEnvs_go_spans. Qed.

Lemma matchMathEnvs_go_few_dollars (open : option string) (s : string) :
  (count_char "$" s + match open with Some _ => 1 | None => 0 end <= 1)%nat ->
  Js.matchMathEnvs_go open s = [].
Proof.
  revert open. induction s as [|c s IH]; intros open Hfew; [done|].
  cbn [Js.matchMathEnvs_go count_char] in *.
  destruct (Ascii.eqb c "$"), open as [buf|]; try lia;
    try destruct (Js.is_line_terminator c); apply IH; cbn; lia.
Qed.

Lemma maskTitles_few_dollars (data : Cite) :
  Forall (fun entry => (count_char "$" (CSL.title entry) <= 1)%nat) data ->
  maskTitles data = ([], data).
Proof.
  induction 1 as [|entry rest Hentry _ IH]; [done|].
  cbn [maskTitles]. unfold maskTitle, Js.matchMathEnvs.
  rewrite matchMathEnvs_go_few_dollars by lia. cbn [fold_left].
  by rewrite IH.
Qed.

(** X11: when no title has more than one "$", [exportBibTexBody] hands the
    citations to the formatter as they are, and its result is the rendered
    text with a backslash before every ampersand, percent and hash sign. *)
Theorem exportBibTexBody_without_spans `{Collaborators} (data : Cite)
  (rendered : string) (w : World) :
  Forall (fun entry => (count_char "$" (CSL.title entry) <= 1)%nat) data ->
  format_bibtex data = Ok rendered ->
  (exportBibTexBody (Some data) w).1 = Ok (escape_chars rendered).
Proof.
  intros Hfew Hrender.
  unfold exportBibTexBody, errorcatching, cite_format.
  rewrite (maskTitles_few_dollars data Hfew). run_monad. rewrite Hrender.
  cbv beta iota. cbn [fst restoreMathEnvs fold_left].
  by rewrite escapeLaTexString_chars.
Qed.

Lemma exportBibTexBody_without_spans_witness :
  (exportBibTexBody
     (Some [parseSingle
              (Sample.entity "Pricing at $5 & below" "Jane Doe" "R&D")])
     Sample.world).1
  = Ok "@paper-conference{doe2020pricing, title = {Pricing at $5 \& below}, journal = {R\&D}}".
Proof.
  refine (eq_trans
            (exportBibTexBody_without_spans
               [parseSingle
                  (Sample.entity "Pricing at $5 & below" "Jane Doe" "R&D")]
               "@paper-conference{doe2020pricing, title = {Pricing at $5 & below}, journal = {R&D}}"
               Sample.world _ _) _).
  - repeat constructor.
  - reflexivity.
  - reflexivity.
Defined.

(* ===================================================================== *)
(** * The venue that the formatter sees *)
(* ===================================================================== *)

(** X5: [export] with the format PlainText and a built-in style, for records
    whose [codes] are defined: the bibliography formatter receives one
    citation per record, in order, whose container title is the rewritten
    publication, and what it renders is written to the clipboard. *)
Theorem export_plain_text_rewritten_venue `{Collaborators}
  (paperEntities : list PaperEntity.t) (text : string) (w : World) :
  let csl := selectedCSLStyle (prefs w) in
  let data :=
    map (fun p => parseSingle (rewriteEntity (prefs w) p)) paperEntities in
  csl ∈ builtinKeys ->
  Forall (fun p => is_Some (PaperEntity.codes p)) paperEntities ->
  format_bibliography (templates w) csl data = Ok text ->
  map CSL.container_title data
  = map (fun p => rewrittenPublication (prefs w) (PaperEntity.publication p))
      paperEntities
  /\ exists w',
      export paperEntities "PlainText" w = (Ok tt, w')
      /\ clipboard w' = text :: clipboard w.
Proof.
  cbn zeta. intros Hbuiltin Hcodes Hrender.
  split; [by rewrite map_map|].
  destruct (drafts_fresh paperEntities w)
    as (drafts & w1 & Hdrafts & Hnodup & _ & Hheld & _ & Hsame1).
  destruct (toCite_rewritten_entities drafts paperEntities w1 Hnodup Hheld
              Hcodes)
    as (w2 & Hcite & _ & _ & Hsame2).
  destruct Hsame1 as (Hp1 & _ & _ & Ht1 & _ & _ & Hc1).
  destruct Hsame2 as (Hp2 & _ & _ & Ht2 & _ & Hc2).
  rewrite Hp1 in Hcite.
  rewrite export_unfold.
  unfold errorcatching, export_drafts, clipboard_writeText. run_monad.
  rewrite Hdrafts. cbv beta iota. cbn [String.eqb Ascii.eqb Bool.eqb].
  cbv beta iota. rewrite Hcite. cbv beta iota.
  rewrite exportPlainText_builtin_run by (by rewrite Hp2, Hp1).
  unfold cite_format. run_monad. cbn [templates set_formatted].
  rewrite Hp2, Hp1, Ht2, Ht1, Hrender.
  eexists. split; [reflexivity|]. cbn. congruence.
Qed.

Lemma export_plain_text_rewritten_venue_witness :
  exists w',
    export [Sample.entity "A Title" "Jane Doe" "NeurIPS"] "PlainText"
      Sample.world
    = (Ok tt, w')
    /\ clipboard w' = ["A Title (apa)."].
Proof.
  destruct (export_plain_text_rewritten_venue
              [Sample.entity "A Title" "Jane Doe" "NeurIPS"]
              "A Title (apa)." Sample.world) as [_ Hrun].
  - cbn. unfold builtinKeys. listed.
  - repeat constructor; by eexists.
  - reflexivity.
  - exact Hrun.
Defined.

(* ===================================================================== *)
(** * The formatter call of an export *)
(* ===================================================================== *)

Lemma exportPlainText_missing_run `{Collaborators} (cite : option Cite)
  (w : World) :
  let csl := selectedCSLStyle (prefs w) in
  csl ∉ builtinKeys ->
  files w !! path_join (importedCSLStylesPath (prefs w)) (csl +:+ ".csl")
    = None ->
  exportPlainText cite w
  = cite_format cite (FormatBibliography "apa")
      (set_log (fun l => l ++ [missing_style_entry csl]) w).
Proof.
  cbn zeta. intros Hcustom Hmissing.
  unfold exportPlainText, existsSync, logService_error. run_monad.
  rewrite (bool_decide_eq_false_2 _ Hcustom), Hmissing.
  by rewrite (bool_decide_eq_false_2 (is_Some None)) by (by intros [? ?]).
Qed.

(** Two worlds with the same preferences, files and template registry
    resolve the selected style alike. *)
Lemma resolveTemplate_same `{Collaborators} (w w' : World) :
  prefs w' = prefs w -> files w' = files w -> templates w' = templates w ->
  resolveTemplate w' = resolveTemplate w.
Proof. unfold resolveTemplate. by intros -> -> ->. Qed.

(** [exportPlainText] returns what the bibliography formatter renders with
    the resolved registry and template, and writes nothing to the
    clipboard. *)
Lemma exportPlainText_resolved `{Collaborators} (cite : option Cite)
  (w : World) :
  (exportPlainText cite w).1
  = match cite with
    | Some data =>
        format_bibliography (resolveTemplate w).1 (resolveTemplate w).2 data
    | None => Throw (null_read "format")
    end
  /\ clipboard (exportPlainText cite w).2 = clipboard w.
Proof.
  split;
    [|by apply (exportPlainText_preserves clipboard)].
  unfold resolveTemplate.
  destruct (decide (selectedCSLStyle (prefs w) ∈ builtinKeys))
    as [Hbuiltin|Hcustom].
  { rewrite exportPlainText_builtin_run by done.
    rewrite (bool_decide_eq_true_2 _ Hbuiltin).
    by destruct (cite_format_bibliography_result cite
                   (selectedCSLStyle (prefs w)) w) as (-> & _). }
  rewrite (bool_decide_eq_false_2 _ Hcustom).
  destruct (files w !! path_join (importedCSLStylesPath (prefs w))
                         (selectedCSLStyle (prefs w) +:+ ".csl"))
    as [content|] eqn:Hfile.
  - destruct (templates w !! selectedCSLStyle (prefs w))
      as [template|] eqn:Hregistry.
    + rewrite (exportPlainText_registered_run cite w template content)
        by done.
      rewrite (bool_decide_eq_true_2 (is_Some (Some _))) by done.
      by destruct (cite_format_bibliography_result cite
                     (selectedCSLStyle (prefs w)) w) as (-> & _).
    + rewrite (exportPlainText_first_use_run cite w content) by done.
      rewrite (bool_decide_eq_false_2 (is_Some None))
        by (by intros [? ?]).
      by destruct (cite_format_bibliography_result cite
                     (selectedCSLStyle (prefs w))
                     (set_templates
                        (insert (selectedCSLStyle (prefs w)) content) w))
        as (-> & _).
  - rewrite exportPlainText_missing_run by done.
    by destruct (cite_format_bibliography_result cite "apa"
                   (set_log
                      (fun l =>
                         l ++ [missing_style_entry
                                 (selectedCSLStyle (prefs w))]) w))
      as (-> & _).
Qed.

(** C9: [export] of an empty sequence never raises.  With "BibTex-Key" it
    writes the empty text.  With "BibTex" it writes what the BibTeX
    formatter renders for no citations, after the escape pass, and the
    empty text when that formatter fails.  With "PlainText" it writes what
    the bibliography formatter renders for no citations with the resolved
    style, and writes nothing when that formatter fails. *)
Theorem export_no_records `{Collaborators} (w : World) :
  (exists w',
      export [] "BibTex-Key" w = (Ok tt, w')
      /\ clipboard w' = EmptyString :: clipboard w)
  /\ (exists w',
         export [] "BibTex" w = (Ok tt, w')
         /\ clipboard w'
            = match format_bibtex [] with
              | Ok rendered => escapeLaTexString rendered
              | Throw _ => EmptyString
              end :: clipboard w)
  /\ (exists w',
         export [] "PlainText" w = (Ok tt, w')
         /\ match format_bibliography (resolveTemplate w).1
                    (resolveTemplate w).2 [] with
            | Ok text => clipboard w' = text :: clipboard w
            | Throw _ => clipboard w' = clipboard w
            end).
Proof.
  split; [|split].
  - eexists. split; reflexivity.
  - unfold export, errorcatching, clipboard_writeText, exportBibTexBody,
      errorcatching, cite_format, logService_error.
    cbn [mapM]. run_monad. cbn [String.eqb Ascii.eqb Bool.eqb].
    cbv beta iota. rewrite toCite_no_entities. cbv beta iota.
    cbn [maskTitles fold_left]. cbv beta iota zeta.
    destruct (format_bibtex []) as [rendered|e]; cbv beta iota;
      eexists; (split; [reflexivity|]); reflexivity.
  - destruct (exportPlainText_resolved (Some []) w) as [Hresult Hkept].
    unfold export, errorcatching, clipboard_writeText, logService_error.
    cbn [mapM]. run_monad. cbn [String.eqb Ascii.eqb Bool.eqb].
    cbv beta iota. rewrite toCite_no_entities. cbv beta iota.
    destruct (exportPlainText (Some []) w) as [result w1].
    cbn [fst snd] in Hresult, Hkept. subst result.
    destruct (format_bibliography _ _ []) as [text|e]; cbv beta iota;
      eexists; (split; [reflexivity|]); cbn; by rewrite Hkept.
Qed.

(** With a BibTeX formatter that ends its output with a line feed, the
    export of no records writes a line feed, not the empty text. *)
Lemma export_no_records_line_feed :
  let run := @export Sample.line_fed [] "BibTex" Sample.world in
  run.1 = Ok tt
  /\ clipboard run.2 = [String "010" EmptyString]
  /\ clipboard run.2 <> [EmptyString].
Proof. by vm_compute. Qed.

(** X8: when the BibTeX formatter fails on the citations of this export,
    the masked data of the rewritten records, [export] with "BibTex" still
    completes: the failure is caught inside [exportBibTexBody], logged as
    the last entry, and the empty text is written to the clipboard. *)
Theorem export_bibtex_formatter_fails `{Collaborators}
  (paperEntities : list PaperEntity.t) (e : string) (w : World) :
  let data :=
    map (fun p => parseSingle (rewriteEntity (prefs w) p)) paperEntities in
  Forall (fun p => is_Some (PaperEntity.codes p)) paperEntities ->
  format_bibtex (maskTitles data).2 = Throw e ->
  exists w',
    export paperEntities "BibTex" w = (Ok tt, w')
    /\ clipboard w' = EmptyString :: clipboard w
    /\ exists entries,
        log w'
        = entries
            ++ [failure_entry
                  "Failed to convert cite object to BibTex string." e].
Proof.
  cbn zeta. intros Hcodes Hfails.
  destruct (drafts_fresh paperEntities w)
    as (drafts & w1 & Hdrafts & Hnodup & _ & Hheld & _ & Hsame1).
  destruct (toCite_rewritten_entities drafts paperEntities w1 Hnodup Hheld
              Hcodes)
    as (w2 & Hcite & _ & _ & Hsame2).
  destruct Hsame1 as (Hp1 & _ & _ & _ & _ & _ & Hc1).
  destruct Hsame2 as (_ & _ & _ & _ & _ & Hc2).
  rewrite Hp1 in Hcite.
  rewrite export_unfold.
  unfold errorcatching, export_drafts, clipboard_writeText. run_monad.
  rewrite Hdrafts. cbv beta iota. cbn [String.eqb Ascii.eqb Bool.eqb].
  cbv beta iota. rewrite Hcite. cbv beta iota.
  unfold exportBibTexBody, errorcatching, cite_format, logService_error.
  run_monad.
  destruct (maskTitles _) as [mathEnvStrs data'] eqn:Hmask.
  cbn [snd] in Hfails. run_monad. rewrite Hfails. cbv beta iota.
  eexists. split; [reflexivity|]. cbn. split; [congruence|].
  by eexists.
Qed.

Lemma export_bibtex_formatter_fails_witness :
  exists w',
    @export Sample.fragile [Sample.entity "A Title" "Jane Doe" "ICML"]
      "BibTex" Sample.world
    = (Ok tt, w')
    /\ clipboard w' = [EmptyString]
    /\ exists entries,
        log w'
        = entries
            ++ [failure_entry
                  "Failed to convert cite object to BibTex string."
                  "cannot format"].
Proof.
  apply (@export_bibtex_formatter_fails Sample.fragile
           [Sample.entity "A Title" "Jane Doe" "ICML"] "cannot format"
           Sample.world).
  - repeat constructor; by eexists.
  - reflexivity.
Defined.

(** X9: when the bibliography formatter fails on the citations of this
    export, with the registry and the template that [exportPlainText]
    resolves, the failure leaves [exportPlainText], is caught by [export]
    and logged as the last entry, and nothing is written to the
    clipboard. *)
Theorem export_plain_text_formatter_fails `{Collaborators}
  (paperEntities : list PaperEntity.t) (e : string) (w : World) :
  let data :=
    map (fun p => parseSingle (rewriteEntity (prefs w) p)) paperEntities in
  Forall (fun p => is_Some (PaperEntity.codes p)) paperEntities ->
  format_bibliography (resolveTemplate w).1 (resolveTemplate w).2 data
    = Throw e ->
  exists w',
    export paperEntities "PlainText" w = (Ok tt, w')
    /\ clipboard w' = clipboard w
    /\ exists entries,
        log w'
        = entries ++ [failure_entry "Failed to export paper entities." e].
Proof.
  cbn zeta. intros Hcodes Hfails.
  destruct (drafts_fresh paperEntities w)
    as (drafts & w1 & Hdrafts & Hnodup & _ & Hheld & _ & Hsame1).
  destruct (toCite_rewritten_entities drafts paperEntities w1 Hnodup Hheld
              Hcodes)
    as (w2 & Hcite & _ & _ & Hsame2).
  destruct Hsame1 as (Hp1 & Hf1 & _ & Ht1 & _ & _ & Hc1).
  destruct Hsame2 as (Hp2 & Hf2 & _ & Ht2 & _ & Hc2).
  rewrite Hp1 in Hcite.
  assert (resolveTemplate w2 = resolveTemplate w) as Hresolved.
  { apply resolveTemplate_same; congruence. }
  destruct (exportPlainText_resolved
              (Some (map (fun p => parseSingle (rewriteEntity (prefs w) p))
                       paperEntities)) w2) as [Hresult Hkept].
  rewrite Hresolved, Hfails in Hresult.
  rewrite export_unfold.
  unfold errorcatching, export_drafts, clipboard_writeText, logService_error.
  run_monad.
  rewrite Hdrafts. cbv beta iota. cbn [String.eqb Ascii.eqb Bool.eqb].
  cbv beta iota. rewrite Hcite. cbv beta iota.
  destruct (exportPlainText _ w2) as [result w3].
  cbn [fst snd] in Hresult, Hkept. subst result. cbv beta iota.
  eexists. split; [reflexivity|]. cbn. split; [congruence|].
  by eexists.
Qed.

Lemma export_plain_text_formatter_fails_witness :
  exists w',
    @export Sample.fragile [Sample.entity "A Title" "Jane Doe" "ICML"]
      "PlainText" Sample.world
    = (Ok tt, w')
    /\ clipboard w' = []
    /\ exists entries,
        log w'
        = entries
            ++ [failure_entry "Failed to export paper entities."
                  "cannot format"].
Proof.
  apply (@export_plain_text_formatter_fails Sample.fragile
           [Sample.entity "A Title" "Jane Doe" "ICML"] "cannot format"
           Sample.world).
  - repeat constructor; by eexists.
  - reflexivity.
Defined.
